(** * API-reference extraction for classes and interfaces (ngtsc docs),
      and the skip-hydration checks of the runtime

    A shallow embedding of
    [packages/compiler-cli/src/ngtsc/docs/src/class_extractor.ts] and of the
    skip-hydration helpers, with the properties of the extracted member list,
    of the overload rule, of the metadata dispatch and of the attribute scan. *)

From Stdlib Require Import ZArith Lia.
From stdpp Require Import base option list strings sorting gmap.

Local Open Scope string_scope.
Local Open Scope list_scope.

(** ** The part of the TypeScript syntax tree the extractor reads *)

(** [ts.SyntaxKind], restricted to the modifier kinds, the kinds of class and
    interface members and the two kinds of declaration. *)
Inductive SyntaxKind :=
| AbstractKeyword | AccessorKeyword | AsyncKeyword | DeclareKeyword
| OverrideKeyword | PrivateKeyword | ProtectedKeyword | PublicKeyword
| ReadonlyKeyword | StaticKeyword | Decorator
| PropertySignature | PropertyDeclaration | MethodSignature | MethodDeclaration
| ClassStaticBlockDeclaration | Constructor | GetAccessor | SetAccessor
| CallSignature | ConstructSignature | IndexSignature | SemicolonClassElement
| ClassDeclaration | InterfaceDeclaration.

#[global] Instance SyntaxKind_eq_dec : EqDecision SyntaxKind.
Proof. solve_decision. Defined.

(** A [ts.ClassElement] or [ts.TypeElement].  [name] is the source text of the
    name node ([name?.getText()]), [modifiers] the kinds of the modifier nodes
    (absent when the member has none), [questionToken] whether the optional
    marker is present, [pos] the source position. *)
Module MemberElement.
Record t := mk {
  kind : SyntaxKind;
  name : option string;
  modifiers : option (list SyntaxKind);
  questionToken : bool;
  pos : Z
}.
End MemberElement.

#[global] Instance MemberElement_eq_dec : EqDecision MemberElement.t.
Proof. solve_decision. Defined.

(** A [ts.ClassDeclaration] (with a name) or a [ts.InterfaceDeclaration]. *)
Module ClassDeclarationLike.
Record t := mk {
  kind : SyntaxKind;
  name : string;
  modifiers : option (list SyntaxKind);
  members : list MemberElement.t
}.
End ClassDeclarationLike.

(** The nodes the JSDoc readers are applied to. *)
Inductive Node :=
| MemberNode (member : MemberElement.t)
| DeclarationNode (declaration : ClassDeclarationLike.t).

Definition isMethodDeclaration (m : MemberElement.t) : bool :=
  bool_decide (MemberElement.kind m = MethodDeclaration).
Definition isMethodSignature (m : MemberElement.t) : bool :=
  bool_decide (MemberElement.kind m = MethodSignature).
Definition isPropertyDeclaration (m : MemberElement.t) : bool :=
  bool_decide (MemberElement.kind m = PropertyDeclaration).
Definition isPropertySignature (m : MemberElement.t) : bool :=
  bool_decide (MemberElement.kind m = PropertySignature).
Definition isGetAccessor (m : MemberElement.t) : bool :=
  bool_decide (MemberElement.kind m = GetAccessor).
Definition isSetAccessor (m : MemberElement.t) : bool :=
  bool_decide (MemberElement.kind m = SetAccessor).
Definition isAccessor (m : MemberElement.t) : bool :=
  isGetAccessor m || isSetAccessor m.
Definition isInterfaceDeclaration (d : ClassDeclarationLike.t) : bool :=
  bool_decide (ClassDeclarationLike.kind d = InterfaceDeclaration).

(** ** Documentation entries *)

Inductive EntryType :=
| Component | Directive | Interface | NgModule | Pipe | UndecoratedClass.

Inductive MemberType := Property | Method | Getter | Setter.

Inductive MemberTags :=
| Abstract | Static | Readonly | Protected | Optional | Input | Output.

#[global] Instance EntryType_eq_dec : EqDecision EntryType.
Proof. solve_decision. Defined.
#[global] Instance MemberType_eq_dec : EqDecision MemberType.
Proof. solve_decision. Defined.
#[global] Instance MemberTags_eq_dec : EqDecision MemberTags.
Proof. solve_decision. Defined.

(** Modelled from the spec: the records the external readers return
    (documentation tags, generic-parameter descriptors, parameters and the
    function entry of the function-signature extractor); their declarations
    live in [entities.ts] and [function_extractor.ts]. *)
Record JsDocTagEntry := { tagName : string; tagComment : string }.
Record GenericEntry :=
  { genericName : string; genericConstraint : option string;
    genericDefault : option string }.
Record ParameterEntry :=
  { paramName : string; paramType : string; isOptional : bool }.
Module FunctionEntry.
Record t := mk {
  name : string;
  params : list ParameterEntry;
  returnType : string;
  description : string;
  jsdocTags : list JsDocTagEntry
}.
End FunctionEntry.

(** [{...functionExtractor.extract(), memberType, memberTags}]. *)
Module MethodEntry.
Record t := mk {
  signature : FunctionEntry.t;
  memberType : MemberType;
  memberTags : list MemberTags
}.
End MethodEntry.

Module PropertyEntry.
Record t := mk {
  name : string;
  type : string;
  memberType : MemberType;
  memberTags : list MemberTags;
  description : string;
  jsdocTags : list JsDocTagEntry;
  inputAlias : option string;
  isRequiredInput : option bool;
  outputAlias : option string
}.
End PropertyEntry.

Inductive MemberEntry :=
| MethodMember (entry : MethodEntry.t)
| PropertyMember (entry : PropertyEntry.t).

(** [ClassEntry] with the fields its directive and pipe flavours add. *)
Module ClassEntry.
Record t := mk {
  name : string;
  isAbstract : bool;
  entryType : EntryType;
  members : list MemberEntry;
  generics : list GenericEntry;
  description : string;
  jsdocTags : list JsDocTagEntry;
  rawComment : string;
  isStandalone : option bool;
  selector : option string;
  exportAs : option (list string);
  pipeName : option string
}.
End ClassEntry.

(** ** Metadata of the compiler *)

Record InputOrOutput := { outputClassPropertyName : string; outputBindingPropertyName : string }.
Record InputMapping :=
  { classPropertyName : string; bindingPropertyName : string; required : bool }.

Module DirectiveMeta.
Record t := mk {
  isStandalone : bool;
  selector : option string;
  exportAs : option (list string);
  isComponent : bool;
  inputs : option (gmap string InputMapping);
  outputs : option (gmap string InputOrOutput)
}.
End DirectiveMeta.

Module PipeMeta.
Record t := mk { name : string; isStandalone : bool }.
End PipeMeta.

Record NgModuleMeta := { ngModuleRef : string }.

Record Reference := { node : ClassDeclarationLike.t }.

Record MetadataReader := {
  getDirectiveMetadata : Reference → option DirectiveMeta.t;
  getPipeMetadata : Reference → option PipeMeta.t;
  getNgModuleMetadata : Reference → option NgModuleMeta
}.

(** ** Thrown errors *)

Inductive JsError := TypeError.

Inductive Result (A : Type) :=
| Ok (a : A)
| Throw (e : JsError).
Arguments Ok {A} a.
Arguments Throw {A} e.

#[global] Instance Result_ret : MRet Result := λ A a, Ok a.
#[global] Instance Result_bind : MBind Result :=
  λ A B f m, match m with Ok a => f a | Throw e => Throw e end.
#[global] Instance Result_fmap : FMap Result :=
  λ A B f m, match m with Ok a => Ok (f a) | Throw e => Throw e end.

(** ** External readers

    The name filter of [filters.ts], the type, generics and JSDoc readers and
    the function-signature extractor are imported by the extractor; the type
    checker they receive is part of the reader. *)
Class Collaborators := {
  isAngularPrivateName : string → bool;
  extractResolvedTypeString : MemberElement.t → string;
  functionExtractor : MemberElement.t → FunctionEntry.t;
  extractGenerics : ClassDeclarationLike.t → list GenericEntry;
  extractJsDocDescription : Node → string;
  extractJsDocTags : Node → list JsDocTagEntry;
  extractRawJsDoc : Node → string
}.

(** ** The extractors *)

(** The generic extractor and its three subclasses; each holds the declaration
    it was built for, the subclasses also their metadata. *)
Inductive Extractor :=
| ClassExtractor (declaration : ClassDeclarationLike.t)
| DirectiveExtractor (declaration : ClassDeclarationLike.t) (metadata : DirectiveMeta.t)
| PipeExtractor (declaration : ClassDeclarationLike.t) (metadata : PipeMeta.t)
| NgModuleExtractor (declaration : ClassDeclarationLike.t) (metadata : NgModuleMeta).

Definition declaration (self : Extractor) : ClassDeclarationLike.t :=
  match self with
  | ClassExtractor d | DirectiveExtractor d _ | PipeExtractor d _
  | NgModuleExtractor d _ => d
  end.

Definition getTagForMemberModifier (modifier : SyntaxKind) : option MemberTags :=
  match modifier with
  | StaticKeyword => Some Static
  | ReadonlyKeyword => Some Readonly
  | ProtectedKeyword => Some Protected
  | AbstractKeyword => Some Abstract
  | _ => None
  end.

Fixpoint getMemberTagsFromModifiers (mods : list SyntaxKind) : list MemberTags :=
  match mods with
  | [] => []
  | modifier :: mods' =>
      match getTagForMemberModifier modifier with
      | Some tag => tag :: getMemberTagsFromModifiers mods'
      | None => getMemberTagsFromModifiers mods'
      end
  end.

Definition getMemberTags (member : MemberElement.t) : list MemberTags :=
  let tags := getMemberTagsFromModifiers (default [] (MemberElement.modifiers member)) in
  if MemberElement.questionToken member then tags ++ [Optional] else tags.

Definition isProperty (member : MemberElement.t) : bool :=
  isPropertyDeclaration member || isPropertySignature member.

Definition isMethod (member : MemberElement.t) : bool :=
  isMethodDeclaration member || isMethodSignature member.

Definition isDocumentableMember (member : MemberElement.t) : bool :=
  isMethod member || isProperty member || isAccessor member.

(** [mods.some(mod => mod.kind === kind)]. *)
Definition some_kind (kind : SyntaxKind) (mods : list SyntaxKind) : bool :=
  existsb (λ modifier, bool_decide (modifier = kind)) mods.

Definition isAbstract (self : Extractor) : bool :=
  some_kind AbstractKeyword
    (default [] (ClassDeclarationLike.modifiers (declaration self))).

(** [a.pos - b.pos <= 0], the order [sort] is given.  Only the position of
    the last element of the sorted array is read, so the order among members
    of equal position does not matter. *)
Definition pos_le (a b : MemberElement.t) : Prop :=
  (MemberElement.pos a ≤ MemberElement.pos b)%Z.

#[global] Instance pos_le_dec : RelDecision pos_le.
Proof. intros a b. unfold pos_le. apply Z_le_dec. Defined.

(** The members of a declaration that carry a given name: the array
    [methodsWithSameName] before it is sorted. *)
Definition sameNamed (d : ClassDeclarationLike.t) (n : string)
    : list MemberElement.t :=
  filter (λ member, MemberElement.name member = Some n)
    (ClassDeclarationLike.members d).

(** No member of that name has a greater source position than [m]. *)
Definition atLastPosition (d : ClassDeclarationLike.t) (n : string)
    (m : MemberElement.t) : Prop :=
  Forall (λ y, pos_le y m) (sameNamed d n).

#[global] Instance atLastPosition_dec d n m : Decision (atLastPosition d n m).
Proof. unfold atLastPosition. apply _. Defined.

Section extractor.
Context `{!Collaborators}.

Definition isMemberExcluded (member : MemberElement.t) : bool :=
  match MemberElement.name member with
  | None => true
  | Some name =>
      negb (isDocumentableMember member)
      || match MemberElement.modifiers member with
         | Some mods => some_kind PrivateKeyword mods
         | None => false
         end
      || isAngularPrivateName name
  end.

(** Reading [method.name.getText()] or the last element's [pos] throws a
    [TypeError] when the name, or the element, is missing. *)
Definition isImplementationForOverload (self : Extractor)
    (method : MemberElement.t) : Result bool :=
  if bool_decide (MemberElement.kind method = MethodSignature) then Ok false
  else
    match MemberElement.name method with
    | None => Throw TypeError
    | Some methodName =>
        let methodsWithSameName :=
          merge_sort pos_le
            (filter (λ member, MemberElement.name member = Some methodName)
               (ClassDeclarationLike.members (declaration self))) in
        if bool_decide (length methodsWithSameName = 1) then Ok false
        else
          match last methodsWithSameName with
          | None => Throw TypeError
          | Some lastMethod =>
              Ok (bool_decide
                    (MemberElement.pos method = MemberElement.pos lastMethod))
          end
    end.

Definition extractMethod (self : Extractor) (methodDeclaration : MemberElement.t)
    : MethodEntry.t :=
  {| MethodEntry.signature := functionExtractor methodDeclaration;
     MethodEntry.memberType := Method;
     MethodEntry.memberTags := getMemberTags methodDeclaration |}.

(** [ClassExtractor.extractClassProperty]. *)
Definition extractClassProperty_base (propertyDeclaration : MemberElement.t)
    : Result PropertyEntry.t :=
  match MemberElement.name propertyDeclaration with
  | None => Throw TypeError
  | Some name =>
      Ok {| PropertyEntry.name := name;
            PropertyEntry.type := extractResolvedTypeString propertyDeclaration;
            PropertyEntry.memberType := Property;
            PropertyEntry.memberTags := getMemberTags propertyDeclaration;
            PropertyEntry.description :=
              extractJsDocDescription (MemberNode propertyDeclaration);
            PropertyEntry.jsdocTags :=
              extractJsDocTags (MemberNode propertyDeclaration);
            PropertyEntry.inputAlias := None;
            PropertyEntry.isRequiredInput := None;
            PropertyEntry.outputAlias := None |}
  end.

Definition getInputMetadata (metadata : DirectiveMeta.t) (prop : MemberElement.t)
    : Result (option InputMapping) :=
  match MemberElement.name prop with
  | None => Throw TypeError
  | Some propName =>
      Ok (inputs ← DirectiveMeta.inputs metadata; inputs !! propName)
  end.

Definition getOutputMetadata (metadata : DirectiveMeta.t) (prop : MemberElement.t)
    : Result (option InputOrOutput) :=
  match MemberElement.name prop with
  | None => Throw TypeError
  | Some propName =>
      Ok (outputs ← DirectiveMeta.outputs metadata; outputs !! propName)
  end.

Definition pushInput (entry : PropertyEntry.t) (inputMetadata : InputMapping)
    : PropertyEntry.t :=
  {| PropertyEntry.name := PropertyEntry.name entry;
     PropertyEntry.type := PropertyEntry.type entry;
     PropertyEntry.memberType := PropertyEntry.memberType entry;
     PropertyEntry.memberTags := PropertyEntry.memberTags entry ++ [Input];
     PropertyEntry.description := PropertyEntry.description entry;
     PropertyEntry.jsdocTags := PropertyEntry.jsdocTags entry;
     PropertyEntry.inputAlias := Some (bindingPropertyName inputMetadata);
     PropertyEntry.isRequiredInput := Some (required inputMetadata);
     PropertyEntry.outputAlias := PropertyEntry.outputAlias entry |}.

Definition pushOutput (entry : PropertyEntry.t) (outputMetadata : InputOrOutput)
    : PropertyEntry.t :=
  {| PropertyEntry.name := PropertyEntry.name entry;
     PropertyEntry.type := PropertyEntry.type entry;
     PropertyEntry.memberType := PropertyEntry.memberType entry;
     PropertyEntry.memberTags := PropertyEntry.memberTags entry ++ [Output];
     PropertyEntry.description := PropertyEntry.description entry;
     PropertyEntry.jsdocTags := PropertyEntry.jsdocTags entry;
     PropertyEntry.inputAlias := PropertyEntry.inputAlias entry;
     PropertyEntry.isRequiredInput := PropertyEntry.isRequiredInput entry;
     PropertyEntry.outputAlias := Some (outputBindingPropertyName outputMetadata) |}.

(** [extractClassProperty], with the override of the directive extractor. *)
Definition extractClassProperty (self : Extractor)
    (propertyDeclaration : MemberElement.t) : Result PropertyEntry.t :=
  match self with
  | DirectiveExtractor _ metadata =>
      entry ← extractClassProperty_base propertyDeclaration;
      inputMetadata ← getInputMetadata metadata propertyDeclaration;
      let entry :=
        match inputMetadata with
        | Some i => pushInput entry i
        | None => entry
        end in
      outputMetadata ← getOutputMetadata metadata propertyDeclaration;
      Ok (match outputMetadata with
          | Some o => pushOutput entry o
          | None => entry
          end)
  | _ => extractClassProperty_base propertyDeclaration
  end.

Definition withMemberType (entry : PropertyEntry.t) (memberType : MemberType)
    : PropertyEntry.t :=
  {| PropertyEntry.name := PropertyEntry.name entry;
     PropertyEntry.type := PropertyEntry.type entry;
     PropertyEntry.memberType := memberType;
     PropertyEntry.memberTags := PropertyEntry.memberTags entry;
     PropertyEntry.description := PropertyEntry.description entry;
     PropertyEntry.jsdocTags := PropertyEntry.jsdocTags entry;
     PropertyEntry.inputAlias := PropertyEntry.inputAlias entry;
     PropertyEntry.isRequiredInput := PropertyEntry.isRequiredInput entry;
     PropertyEntry.outputAlias := PropertyEntry.outputAlias entry |}.

Definition extractGetterSetter (self : Extractor) (accessor : MemberElement.t)
    : Result PropertyEntry.t :=
  entry ← extractClassProperty self accessor;
  Ok (withMemberType entry (if isGetAccessor accessor then Getter else Setter)).

Definition extractClassMember (self : Extractor)
    (memberDeclaration : MemberElement.t) : Result (option MemberEntry) :=
  let otherwise :=
    if isProperty memberDeclaration then
      entry ← extractClassProperty self memberDeclaration;
      Ok (Some (PropertyMember entry))
    else if isAccessor memberDeclaration then
      entry ← extractGetterSetter self memberDeclaration;
      Ok (Some (PropertyMember entry))
    else Ok None in
  if isMethod memberDeclaration then
    isImplementation ← isImplementationForOverload self memberDeclaration;
    if negb isImplementation
    then Ok (Some (MethodMember (extractMethod self memberDeclaration)))
    else otherwise
  else otherwise.

(** The loop of [extractAllClassMembers], from the members still to visit and
    the entries pushed so far. *)
Fixpoint extractMembersLoop (self : Extractor) (rest : list MemberElement.t)
    (members : list MemberEntry) : Result (list MemberEntry) :=
  match rest with
  | [] => Ok members
  | member :: rest' =>
      if isMemberExcluded member then extractMembersLoop self rest' members
      else
        memberEntry ← extractClassMember self member;
        match memberEntry with
        | Some entry => extractMembersLoop self rest' (members ++ [entry])
        | None => extractMembersLoop self rest' members
        end
  end.

Definition extractAllClassMembers (self : Extractor)
    (classDeclaration : ClassDeclarationLike.t) : Result (list MemberEntry) :=
  extractMembersLoop self (ClassDeclarationLike.members classDeclaration) [].

(** The entries a single member adds to the list. *)
Definition entriesOfMember (self : Extractor) (m : MemberElement.t)
    : Result (list MemberEntry) :=
  extractMembersLoop self [m] [].

(** [ClassExtractor.extract]. *)
Definition extract_base (self : Extractor) : Result ClassEntry.t :=
  members ← extractAllClassMembers self (declaration self);
  Ok {| ClassEntry.name := ClassDeclarationLike.name (declaration self);
        ClassEntry.isAbstract := isAbstract self;
        ClassEntry.entryType :=
          if isInterfaceDeclaration (declaration self) then Interface
          else UndecoratedClass;
        ClassEntry.members := members;
        ClassEntry.generics := extractGenerics (declaration self);
        ClassEntry.description :=
          extractJsDocDescription (DeclarationNode (declaration self));
        ClassEntry.jsdocTags :=
          extractJsDocTags (DeclarationNode (declaration self));
        ClassEntry.rawComment :=
          extractRawJsDoc (DeclarationNode (declaration self));
        ClassEntry.isStandalone := None;
        ClassEntry.selector := None;
        ClassEntry.exportAs := None;
        ClassEntry.pipeName := None |}.

Definition overlay (entry : ClassEntry.t) (entryType : EntryType)
    (isStandalone : option bool) (selector : option string)
    (exportAs : option (list string)) (pipeName : option string) : ClassEntry.t :=
  {| ClassEntry.name := ClassEntry.name entry;
     ClassEntry.isAbstract := ClassEntry.isAbstract entry;
     ClassEntry.entryType := entryType;
     ClassEntry.members := ClassEntry.members entry;
     ClassEntry.generics := ClassEntry.generics entry;
     ClassEntry.description := ClassEntry.description entry;
     ClassEntry.jsdocTags := ClassEntry.jsdocTags entry;
     ClassEntry.rawComment := ClassEntry.rawComment entry;
     ClassEntry.isStandalone := isStandalone;
     ClassEntry.selector := selector;
     ClassEntry.exportAs := exportAs;
     ClassEntry.pipeName := pipeName |}.

(** [extract], with the overrides of the three subclasses. *)
Definition extract (self : Extractor) : Result ClassEntry.t :=
  entry ← extract_base self;
  match self with
  | ClassExtractor _ => Ok entry
  | DirectiveExtractor _ metadata =>
      Ok (overlay entry
            (if DirectiveMeta.isComponent metadata then Component else Directive)
            (Some (DirectiveMeta.isStandalone metadata))
            (Some (default "" (DirectiveMeta.selector metadata)))
            (Some (default [] (DirectiveMeta.exportAs metadata)))
            (ClassEntry.pipeName entry))
  | PipeExtractor _ metadata =>
      Ok (overlay entry Pipe
            (Some (PipeMeta.isStandalone metadata))
            (ClassEntry.selector entry) (ClassEntry.exportAs entry)
            (Some (PipeMeta.name metadata)))
  | NgModuleExtractor _ _ =>
      Ok (overlay entry NgModule
            (ClassEntry.isStandalone entry) (ClassEntry.selector entry)
            (ClassEntry.exportAs entry) (ClassEntry.pipeName entry))
  end.

Definition extractClass (classDeclaration : ClassDeclarationLike.t)
    (metadataReader : MetadataReader) : Result ClassEntry.t :=
  let ref := {| node := classDeclaration |} in
  let directiveMetadata := getDirectiveMetadata metadataReader ref in
  let pipeMetadata := getPipeMetadata metadataReader ref in
  let ngModuleMetadata := getNgModuleMetadata metadataReader ref in
  let extractor :=
    match directiveMetadata, pipeMetadata, ngModuleMetadata with
    | Some metadata, _, _ => DirectiveExtractor classDeclaration metadata
    | None, Some metadata, _ => PipeExtractor classDeclaration metadata
    | None, None, Some metadata => NgModuleExtractor classDeclaration metadata
    | None, None, None => ClassExtractor classDeclaration
    end in
  extract extractor.

Definition extractInterface (declaration : ClassDeclarationLike.t)
    : Result ClassEntry.t :=
  extract (ClassExtractor declaration).

End extractor.

(** ** Skip-hydration checks of the runtime *)

(** An entry of [TAttributes]: a string, a numeric [AttributeMarker], or a
    [CssSelector] array. *)
Inductive TAttribute :=
| AttrString (s : string)
| AttrMarker (n : Z)
| AttrSelector (selector : list string).

(** The two fields of a [TNode] the checks read. *)
#[local] Unset Elimination Schemes.
Inductive TNode :=
| mkTNode (mergedAttrs : option (list TAttribute)) (parent : option TNode).
#[local] Set Elimination Schemes.

Definition mergedAttrs (tNode : TNode) : option (list TAttribute) :=
  match tNode with mkTNode attrs _ => attrs end.

Definition parent (tNode : TNode) : option TNode :=
  match tNode with mkTNode _ p => p end.

Definition SKIP_HYDRATION_ATTR_NAME : string := "ngSkipHydration".
Definition SKIP_HYDRATION_ATTR_NAME_LOWER_CASE : string := "ngskiphydration".

(** [String.prototype.toLowerCase] on the letters A to Z; the checks below are
    stated for any lower-casing function, this one serves the examples. *)
Definition asciiLower (c : Ascii.ascii) : Ascii.ascii :=
  let n := Ascii.nat_of_ascii c in
  if bool_decide (65 ≤ n ≤ 90)%nat then Ascii.ascii_of_nat (n + 32) else c.

Fixpoint asciiToLowerCase (s : string) : string :=
  match s with
  | EmptyString => EmptyString
  | String c s' => String (asciiLower c) (asciiToLowerCase s')
  end.

Section hydration.
Variable toLowerCase : string → string.

(** The loop of [hasSkipHydrationAttrOnTNode], on the entries from index [i]
    on: it reads [attrs[i]] and goes on at [i + 2]. *)
Fixpoint scanAttrNames (attrs : list TAttribute) : bool :=
  match attrs with
  | [] => false
  | value :: rest =>
      match value with
      | AttrMarker _ => false
      | AttrString s =>
          if bool_decide (toLowerCase s = SKIP_HYDRATION_ATTR_NAME_LOWER_CASE)
          then true
          else match rest with [] => false | _ :: rest' => scanAttrNames rest' end
      | AttrSelector _ =>
          match rest with [] => false | _ :: rest' => scanAttrNames rest' end
      end
  end.

Definition hasSkipHydrationAttrOnTNode (tNode : TNode) : bool :=
  match mergedAttrs tNode with
  | None => false
  | Some attrs => scanAttrNames attrs
  end.

(** The upward walk of [isInSkipHydrationBlock], from [currentTNode]. *)
Fixpoint walkParents (currentTNode : TNode) : bool :=
  if hasSkipHydrationAttrOnTNode currentTNode then true
  else match currentTNode with
       | mkTNode _ (Some p) => walkParents p
       | mkTNode _ None => false
       end.

Definition isInSkipHydrationBlock (tNode : TNode) : bool :=
  match parent tNode with
  | Some currentTNode => walkParents currentTNode
  | None => false
  end.

(** Some attribute name at an even index is the skip-hydration name, and no
    even index before it holds a numeric marker. *)
Definition staticNameMatches (attrs : list TAttribute) : Prop :=
  ∃ k s,
    attrs !! (2 * k) = Some (AttrString s)
    ∧ toLowerCase s = SKIP_HYDRATION_ATTR_NAME_LOWER_CASE
    ∧ ∀ j n, j < k → attrs !! (2 * j) ≠ Some (AttrMarker n).

End hydration.

(** The strict ancestors of a node, nearest first. *)
Fixpoint ancestors (tNode : TNode) : list TNode :=
  match tNode with
  | mkTNode _ (Some p) => p :: ancestors p
  | mkTNode _ None => []
  end.

(** Induction along the parent chain of a node. *)
Fixpoint TNode_parent_ind (P : TNode → Prop)
    (Hroot : ∀ attrs, P (mkTNode attrs None))
    (Hchild : ∀ attrs p, P p → P (mkTNode attrs (Some p)))
    (tNode : TNode) : P tNode :=
  match tNode with
  | mkTNode attrs None => Hroot attrs
  | mkTNode attrs (Some p) =>
      Hchild attrs p (TNode_parent_ind P Hroot Hchild p)
  end.

(** ** Test doubles

    Readers for the examples: a name filter hiding the names that start with
    the barred o, and readers that return fixed text. *)
#[global] Instance testCollaborators : Collaborators := {|
  isAngularPrivateName := λ name, String.prefix "ɵ" name;
  extractResolvedTypeString := λ _, "string";
  functionExtractor := λ m,
    FunctionEntry.mk (default "" (MemberElement.name m)) [] "void" "" [];
  extractGenerics := λ _, [];
  extractJsDocDescription := λ _, "";
  extractJsDocTags := λ _, [];
  extractRawJsDoc := λ _, ""
|}.

Definition method (name : string) (pos : Z) : MemberElement.t :=
  MemberElement.mk MethodDeclaration (Some name) None false pos.
Definition methodSignature (name : string) (pos : Z) : MemberElement.t :=
  MemberElement.mk MethodSignature (Some name) None false pos.
Definition property (name : string) (mods : list SyntaxKind) (pos : Z)
    : MemberElement.t :=
  MemberElement.mk PropertyDeclaration (Some name) (Some mods) false pos.
Definition getter (name : string) (pos : Z) : MemberElement.t :=
  MemberElement.mk GetAccessor (Some name) None false pos.
Definition setter (name : string) (pos : Z) : MemberElement.t :=
  MemberElement.mk SetAccessor (Some name) None false pos.
Definition classOf (members : list MemberElement.t) : ClassDeclarationLike.t :=
  ClassDeclarationLike.mk ClassDeclaration "Example" None members.
Definition interfaceOf (members : list MemberElement.t) : ClassDeclarationLike.t :=
  ClassDeclarationLike.mk InterfaceDeclaration "Shape" None members.

Definition overloaded : ClassDeclarationLike.t :=
  classOf [method "run" 10; method "run" 20; method "run" 30; method "stop" 40].

Definition shape : ClassDeclarationLike.t :=
  interfaceOf [methodSignature "area" 5; methodSignature "area" 15].

Definition guarded : ClassDeclarationLike.t :=
  classOf [property "secret" [PrivateKeyword] 0; method "go" 5].

(** A class whose only member is a private method. *)
Definition hidden : ClassDeclarationLike.t :=
  classOf [MemberElement.mk MethodDeclaration (Some "reset")
             (Some [PrivateKeyword]) false 0].

Definition sized : ClassDeclarationLike.t :=
  classOf [getter "size" 0; setter "size" 12].

(** The scenario of a class with a public method, an overloaded method, a
    private field and a field with a framework-private name. *)
Definition scenario : ClassDeclarationLike.t :=
  classOf [method "go" 0; method "run" 10; method "run" 20;
           property "secret" [PrivateKeyword] 30; property "ɵstate" [] 40].

Definition sliderMeta : DirectiveMeta.t :=
  DirectiveMeta.mk true (Some "[slider]") None false
    (Some {[ "value" := {| classPropertyName := "value";
                           bindingPropertyName := "sliderValue";
                           required := true |} ]})
    (Some {[ "changed" := {| outputClassPropertyName := "changed";
                             outputBindingPropertyName := "sliderChanged" |} ]}).

Definition slider : ClassDeclarationLike.t :=
  classOf [property "value" [] 0; property "changed" [ReadonlyKeyword] 10;
           property "step" [] 20].

(** A reader that answers both the directive and the pipe lookup. *)
Definition directiveAndPipeReader : MetadataReader :=
  {| getDirectiveMetadata := λ _, Some sliderMeta;
     getPipeMetadata := λ _, Some (PipeMeta.mk "slide" true);
     getNgModuleMetadata := λ _, None |}.

Definition noMetadataReader : MetadataReader :=
  {| getDirectiveMetadata := λ _, None;
     getPipeMetadata := λ _, None;
     getNgModuleMetadata := λ _, None |}.

Definition markerThenName : list TAttribute :=
  [AttrString "class"; AttrString "a"; AttrMarker 1; AttrString "x";
   AttrString "ngSkipHydration"; AttrString ""].

Definition plainRoot : TNode := mkTNode None None.

Definition skippedHost : TNode :=
  mkTNode (Some [AttrString "ngSkipHydration"; AttrString ""]) (Some plainRoot).

Definition insideSkippedHost : TNode := mkTNode None (Some skippedHost).


(** ** Notions for the further properties *)

Definition memberTypeOf (e : MemberEntry) : MemberType :=
  match e with
  | MethodMember m => MethodEntry.memberType m
  | PropertyMember p => PropertyEntry.memberType p
  end.

Definition memberTagsOf (e : MemberEntry) : list MemberTags :=
  match e with
  | MethodMember m => MethodEntry.memberTags m
  | PropertyMember p => PropertyEntry.memberTags p
  end.

(** The member the overload rule drops: a method declaration whose name is
    carried by some other member and that no member of that name follows. *)
Definition isSkippedImplementation (d : ClassDeclarationLike.t)
    (m : MemberElement.t) : Prop :=
  MemberElement.kind m = MethodDeclaration
  ∧ match MemberElement.name m with
    | Some n => length (sameNamed d n) ≠ 1 ∧ atLastPosition d n m
    | None => False
    end.

#[global] Instance isSkippedImplementation_dec d m :
  Decision (isSkippedImplementation d m).
Proof.
  unfold isSkippedImplementation. destruct (MemberElement.name m); apply _.
Defined.

(** The entry of a directive is the generic entry with tags appended and the
    alias fields set. *)
Definition enriches (generic directive : MemberEntry) : Prop :=
  match generic, directive with
  | MethodMember g, MethodMember e => g = e
  | PropertyMember g, PropertyMember e =>
      PropertyEntry.name e = PropertyEntry.name g
      ∧ PropertyEntry.type e = PropertyEntry.type g
      ∧ PropertyEntry.memberType e = PropertyEntry.memberType g
      ∧ PropertyEntry.description e = PropertyEntry.description g
      ∧ PropertyEntry.jsdocTags e = PropertyEntry.jsdocTags g
      ∧ ∃ bindings, PropertyEntry.memberTags e
                    = PropertyEntry.memberTags g ++ bindings
  | _, _ => False
  end.

(** The table of the member-tag rule, as the specification words it:
    static gives Static, readonly gives Readonly, protected gives Protected,
    abstract gives Abstract. *)
Definition modifierTagTable : list (SyntaxKind * MemberTags) :=
  [(StaticKeyword, Static); (ReadonlyKeyword, Readonly);
   (ProtectedKeyword, Protected); (AbstractKeyword, Abstract)].

(** The tag the table gives for a modifier, if it has a row for it. *)
Definition tagInTable (modifier : SyntaxKind) : option MemberTags :=
  snd <$> find (λ row, bool_decide (fst row = modifier)) modifierTagTable.

(** The modifier keywords that have a row in the table. *)
Definition tableKeywords : list SyntaxKind := fst <$> modifierTagTable.

Section documented_entry.
Context `{!Collaborators}.

(** The entry a member contributes to the members list, if any: none when it
    is excluded, else what [extractClassMember] returns for it. *)
Definition documentedEntry (self : Extractor) (m : MemberElement.t)
    : option MemberEntry :=
  if isMemberExcluded m then None
  else match extractClassMember self m with
       | Ok memberEntry => memberEntry
       | Throw _ => None
       end.

End documented_entry.

(** Source order: each member starts before the members that follow it. *)
Definition pos_lt (a b : MemberElement.t) : Prop :=
  (MemberElement.pos a < MemberElement.pos b)%Z.

(** [ToInt32], the conversion the bitwise operators apply to their operands. *)
Definition toInt32 (x : Z) : Z := ((x + 2 ^ 31) mod 2 ^ 32 - 2 ^ 31)%Z.

(** [hasInSkipHydrationBlockFlag], on the value of [tNode.flags]; the flag
    constant [TNodeFlags.inSkipHydrationBlock] is declared with the node
    interfaces and is taken as a parameter. *)
Definition hasInSkipHydrationBlockFlag (inSkipHydrationBlock : Z) (flags : Z)
    : bool :=
  bool_decide (Z.land (toInt32 flags) (toInt32 inSkipHydrationBlock)
               = inSkipHydrationBlock).

(** A directive whose setter is an input and whose getter of another name is
    not bound. *)
Definition toggleMeta : DirectiveMeta.t :=
  DirectiveMeta.mk false None (Some ["toggle"]) true
    (Some {[ "checked" := {| classPropertyName := "checked";
                             bindingPropertyName := "isChecked";
                             required := false |} ]})
    None.

Definition toggle : ClassDeclarationLike.t :=
  classOf [setter "checked" 0; getter "label" 10; method "flip" 20].

(** A directive whose metadata binds none of the members of [sized]. *)
Definition unboundMeta : DirectiveMeta.t :=
  DirectiveMeta.mk true None None false (Some ∅) None.

(** ** Auxiliary facts *)

#[global] Instance pos_le_total : Total pos_le.
Proof. intros a b. unfold pos_le. lia. Qed.

#[global] Instance pos_le_trans : Transitive pos_le.
Proof. intros a b c. unfold pos_le. lia. Qed.

(** The element [sort] puts last is one of the elements, and none has a
    greater position. *)
Lemma last_merge_sort_pos (l : list MemberElement.t) (x : MemberElement.t) :
  last (merge_sort pos_le l) = Some x →
  x ∈ l ∧ ∀ y, y ∈ l → pos_le y x.
Proof.
  intros Hlast.
  pose proof (merge_sort_Permutation pos_le l) as Hperm.
  pose proof (Sorted_StronglySorted pos_le _ (Sorted_merge_sort pos_le l)) as Hs.
  apply last_Some in Hlast as [l' Hl'].
  rewrite Hl' in Hperm, Hs.
  split.
  - rewrite <- Hperm. set_solver.
  - intros y Hy. rewrite <- Hperm in Hy.
    apply elem_of_app in Hy as [Hy | Hy].
    + apply (StronglySorted_app_1_elem_of pos_le l' [x]); [done..|set_solver].
    + apply list_elem_of_singleton in Hy as ->. unfold pos_le. lia.
Qed.

Lemma length_merge_sort_pos (l : list MemberElement.t) :
  length (merge_sort pos_le l) = length l.
Proof. by rewrite (merge_sort_Permutation pos_le l). Qed.

Lemma kind_exclusive (m : MemberElement.t) :
  isMethod m = true → isProperty m = false ∧ isAccessor m = false.
Proof.
  unfold isMethod, isProperty, isAccessor, isMethodDeclaration,
    isMethodSignature, isPropertyDeclaration, isPropertySignature,
    isGetAccessor, isSetAccessor.
  destruct (MemberElement.kind m); simpl; done.
Qed.

Lemma getMemberTagsFromModifiers_omap (mods : list SyntaxKind) :
  getMemberTagsFromModifiers mods = omap getTagForMemberModifier mods.
Proof.
  induction mods as [|a mods IH]; [done|]. simpl.
  destruct (getTagForMemberModifier a); by rewrite IH.
Qed.

Lemma getTagForMemberModifier_inj (a b : SyntaxKind) (tag : MemberTags) :
  getTagForMemberModifier a = Some tag →
  getTagForMemberModifier b = Some tag → a = b.
Proof. destruct a, b; simpl; congruence. Qed.

Lemma getTagForMemberModifier_range (a : SyntaxKind) (tag : MemberTags) :
  getTagForMemberModifier a = Some tag →
  tag ≠ Optional ∧ tag ≠ Input ∧ tag ≠ Output.
Proof. destruct a; simpl; intros [= <-]; done. Qed.

Lemma elem_of_getMemberTagsFromModifiers (mods : list SyntaxKind)
    (tag : MemberTags) :
  tag ∈ getMemberTagsFromModifiers mods ↔
  ∃ a, a ∈ mods ∧ getTagForMemberModifier a = Some tag.
Proof.
  rewrite getMemberTagsFromModifiers_omap, list_elem_of_omap. naive_solver.
Qed.

Lemma NoDup_getMemberTagsFromModifiers (mods : list SyntaxKind) :
  NoDup mods → NoDup (getMemberTagsFromModifiers mods).
Proof.
  induction 1 as [|a mods Ha Hnd IH]; simpl; [constructor|].
  destruct (getTagForMemberModifier a) as [tag|] eqn:Htag; [|done].
  constructor; [|done].
  rewrite elem_of_getMemberTagsFromModifiers. intros (b & Hb & Hbt).
  by rewrite (getTagForMemberModifier_inj a b tag) in Ha.
Qed.

(** [getMemberTags] never produces a binding tag. *)
Lemma getMemberTags_no_binding_tag (m : MemberElement.t) (tag : MemberTags) :
  tag ∈ getMemberTags m → tag ≠ Input ∧ tag ≠ Output.
Proof.
  unfold getMemberTags.
  assert (Hmods : ∀ mods, tag ∈ getMemberTagsFromModifiers mods →
                    tag ≠ Input ∧ tag ≠ Output).
  { intros mods Hin.
    apply elem_of_getMemberTagsFromModifiers in Hin as (a & _ & Ha).
    apply getTagForMemberModifier_range in Ha. tauto. }
  destruct (MemberElement.questionToken m); [|by apply Hmods].
  rewrite elem_of_app, list_elem_of_singleton.
  intros [Hin | ->]; [by eapply Hmods | done].
Qed.

Section extractor_facts.
Context `{!Collaborators}.

Lemma isMemberExcluded_false (m : MemberElement.t) :
  isMemberExcluded m = false →
  ∃ n, MemberElement.name m = Some n ∧ isDocumentableMember m = true
       ∧ isAngularPrivateName n = false.
Proof.
  unfold isMemberExcluded. destruct (MemberElement.name m) as [n|]; [|done].
  intros Hex. exists n.
  apply orb_false_iff in Hex as [Hex Hpriv].
  apply orb_false_iff in Hex as [Hdoc _].
  apply negb_false_iff in Hdoc. done.
Qed.

(** What the overload resolver returns for a method declaration of the
    extractor's own declaration. *)
Lemma isImplementationForOverload_spec (self : Extractor)
    (m : MemberElement.t) (n : string) :
  MemberElement.kind m ≠ MethodSignature →
  MemberElement.name m = Some n →
  m ∈ ClassDeclarationLike.members (declaration self) →
  isImplementationForOverload self m =
    Ok (bool_decide (length (sameNamed (declaration self) n) ≠ 1
                     ∧ atLastPosition (declaration self) n m)).
Proof.
  intros Hkind Hname Hin. unfold isImplementationForOverload.
  rewrite bool_decide_eq_false_2 by done. rewrite Hname.
  fold (sameNamed (declaration self) n).
  set (group := sameNamed (declaration self) n).
  assert (Hm : m ∈ group).
  { unfold group, sameNamed. apply list_elem_of_filter. done. }
  rewrite length_merge_sort_pos.
  destruct (decide (length group = 1)) as [Hone | Hone].
  - rewrite bool_decide_eq_true_2 by done.
    rewrite bool_decide_eq_false_2 by tauto. done.
  - rewrite bool_decide_eq_false_2 by done.
    destruct (last (merge_sort pos_le group)) as [x|] eqn:Hlast.
    + apply last_merge_sort_pos in Hlast as [Hx Hmax].
      f_equal. apply bool_decide_ext. split.
      * intros Hpos. split; [done|]. apply Forall_forall. intros y Hy.
        specialize (Hmax y Hy). unfold pos_le in *. lia.
      * intros [_ Hall]. unfold atLastPosition in Hall.
        rewrite Forall_forall in Hall.
        specialize (Hall x Hx). specialize (Hmax m Hm).
        unfold pos_le in *. lia.
    + apply last_None in Hlast.
      pose proof (length_merge_sort_pos group) as Hlen.
      rewrite Hlast in Hlen. destruct group; [set_solver | done].
Qed.

Lemma extractClassProperty_base_named (m : MemberElement.t) (n : string) :
  MemberElement.name m = Some n →
  ∃ e, extractClassProperty_base m = Ok e
       ∧ PropertyEntry.name e = n
       ∧ PropertyEntry.memberType e = Property
       ∧ PropertyEntry.memberTags e = getMemberTags m
       ∧ PropertyEntry.inputAlias e = None
       ∧ PropertyEntry.isRequiredInput e = None
       ∧ PropertyEntry.outputAlias e = None.
Proof.
  intros Hname. unfold extractClassProperty_base. rewrite Hname.
  eexists. split; [reflexivity|]. simpl. done.
Qed.

Lemma extractClassProperty_named (self : Extractor) (m : MemberElement.t)
    (n : string) :
  MemberElement.name m = Some n →
  ∃ e, extractClassProperty self m = Ok e
       ∧ PropertyEntry.name e = n
       ∧ PropertyEntry.memberType e = Property.
Proof.
  intros Hname.
  destruct (extractClassProperty_base_named m n Hname)
    as (e & He & Hn & Ht & _).
  destruct self as [d | d meta | d meta | d meta]; simpl; eauto.
  rewrite He. simpl. unfold getInputMetadata, getOutputMetadata.
  rewrite Hname. simpl.
  destruct (DirectiveMeta.inputs meta ≫= _) as [i|];
    destruct (DirectiveMeta.outputs meta ≫= _) as [o|];
    eexists; (split; [reflexivity|]); simpl; done.
Qed.

Lemma extractGetterSetter_named (self : Extractor) (m : MemberElement.t)
    (n : string) :
  MemberElement.name m = Some n →
  ∃ e, extractGetterSetter self m = Ok e
       ∧ PropertyEntry.name e = n
       ∧ PropertyEntry.memberType e = (if isGetAccessor m then Getter else Setter).
Proof.
  intros Hname.
  destruct (extractClassProperty_named self m n Hname) as (e & He & Hn & _).
  unfold extractGetterSetter. rewrite He. simpl.
  eexists. split; [reflexivity|]. simpl. done.
Qed.

(** A method of the extractor's declaration yields a [Method] entry, unless it
    is a declaration (not a signature) that shares its name and sits at the
    last position of its group. *)
Lemma extractClassMember_method (self : Extractor) (m : MemberElement.t)
    (n : string) :
  isMethod m = true →
  MemberElement.name m = Some n →
  m ∈ ClassDeclarationLike.members (declaration self) →
  extractClassMember self m =
    Ok (if bool_decide (MemberElement.kind m ≠ MethodSignature
                        ∧ length (sameNamed (declaration self) n) ≠ 1
                        ∧ atLastPosition (declaration self) n m)
        then None
        else Some (MethodMember (extractMethod self m))).
Proof.
  intros Hmeth Hname Hin. unfold extractClassMember. rewrite Hmeth.
  destruct (kind_exclusive m Hmeth) as [-> ->].
  destruct (decide (MemberElement.kind m = MethodSignature)) as [Hsig | Hsig].
  - unfold isImplementationForOverload.
    rewrite bool_decide_eq_true_2 by done. simpl.
    rewrite bool_decide_eq_false_2 by tauto. done.
  - rewrite (isImplementationForOverload_spec self m n) by done. simpl.
    destruct (decide (length (sameNamed (declaration self) n) ≠ 1
                      ∧ atLastPosition (declaration self) n m)) as [Hl | Hl].
    + rewrite !bool_decide_eq_true_2 by tauto. done.
    + rewrite !bool_decide_eq_false_2 by tauto. done.
Qed.

(** A member that is not excluded is extracted without a thrown error. *)
Lemma extractClassMember_total (self : Extractor) (m : MemberElement.t) :
  isMemberExcluded m = false →
  m ∈ ClassDeclarationLike.members (declaration self) →
  ∃ r, extractClassMember self m = Ok r.
Proof.
  intros Hex Hin.
  destruct (isMemberExcluded_false m Hex) as (n & Hname & Hdoc & _).
  destruct (isMethod m) eqn:Hmeth.
  - rewrite (extractClassMember_method self m n) by done. eauto.
  - unfold extractClassMember. rewrite Hmeth.
    destruct (isProperty m) eqn:Hprop.
    + destruct (extractClassProperty_named self m n Hname) as (e & -> & _).
      simpl. eauto.
    + destruct (isAccessor m); [|eauto].
      destruct (extractGetterSetter_named self m n Hname) as (e & -> & _).
      simpl. eauto.
Qed.

Lemma entriesOfMember_unfold (self : Extractor) (m : MemberElement.t) :
  entriesOfMember self m =
    if isMemberExcluded m then Ok []
    else memberEntry ← extractClassMember self m;
         Ok (match memberEntry with Some entry => [entry] | None => [] end).
Proof.
  unfold entriesOfMember. simpl. destruct (isMemberExcluded m); [done|].
  destruct (extractClassMember self m) as [[e|]|]; done.
Qed.

Lemma extractMembersLoop_acc (self : Extractor) (l : list MemberElement.t)
    (acc : list MemberEntry) :
  extractMembersLoop self l acc =
    (entries ← extractMembersLoop self l []; Ok (acc ++ entries)).
Proof.
  revert acc. induction l as [|m l IH]; intros acc; simpl.
  - by rewrite app_nil_r.
  - destruct (isMemberExcluded m); [apply IH|].
    destruct (extractClassMember self m) as [[e|]|]; simpl; [|apply IH|done].
    rewrite (IH (acc ++ [e])), (IH [e]).
    destruct (extractMembersLoop self l []); simpl; [|done].
    by rewrite <- app_assoc.
Qed.

Lemma extractMembersLoop_cons (self : Extractor) (m : MemberElement.t)
    (l : list MemberElement.t) :
  extractMembersLoop self (m :: l) [] =
    (here ← entriesOfMember self m;
     after ← extractMembersLoop self l [];
     Ok (here ++ after)).
Proof.
  rewrite entriesOfMember_unfold. simpl.
  destruct (isMemberExcluded m); simpl.
  - by destruct (extractMembersLoop self l []).
  - destruct (extractClassMember self m) as [[e|]|]; simpl; [| |done].
    + by rewrite extractMembersLoop_acc.
    + by destruct (extractMembersLoop self l []).
Qed.

Lemma extractMembersLoop_app (self : Extractor) (l1 l2 : list MemberElement.t) :
  extractMembersLoop self (l1 ++ l2) [] =
    (before ← extractMembersLoop self l1 [];
     after ← extractMembersLoop self l2 [];
     Ok (before ++ after)).
Proof.
  induction l1 as [|m l1 IH].
  - simpl. by destruct (extractMembersLoop self l2 []).
  - rewrite <- app_comm_cons, !extractMembersLoop_cons, IH.
    destruct (entriesOfMember self m) as [here|]; simpl; [|done].
    destruct (extractMembersLoop self l1 []) as [before|]; simpl; [|done].
    destruct (extractMembersLoop self l2 []) as [after|]; simpl; [|done].
    by rewrite app_assoc.
Qed.

(** Over members of the extractor's own declaration the loop does not throw;
    its entries are, in order, the extractions of a subsequence of the
    members that are not excluded. *)
Lemma extractMembersLoop_filter_map (self : Extractor)
    (l : list MemberElement.t) :
  l ⊆ ClassDeclarationLike.members (declaration self) →
  ∃ kept entries,
    extractMembersLoop self l [] = Ok entries
    ∧ kept `sublist_of` filter (λ m, isMemberExcluded m = false) l
    ∧ Forall2 (λ m e, extractClassMember self m = Ok (Some e)) kept entries.
Proof.
  induction l as [|m l IH]; intros Hsub.
  - exists [], []. simpl. split; [done|]. split; [constructor | constructor].
  - destruct IH as (kept & entries & Hl & Hk & Hf); [set_solver|].
    rewrite extractMembersLoop_cons, entriesOfMember_unfold, Hl.
    destruct (isMemberExcluded m) eqn:Hex; simpl.
    + exists kept, entries. rewrite filter_cons_False by congruence. done.
    + rewrite filter_cons_True by done.
      destruct (extractClassMember_total self m Hex) as ([e|] & Hm);
        [set_solver|..]; rewrite Hm; simpl.
      * exists (m :: kept), (e :: entries).
        split; [done|]. split; [by constructor | by constructor].
      * exists kept, entries. split; [done|]. split; [by constructor | done].
Qed.

(** The list extracted from a declaration splits at each of its members. *)
Lemma extractAllClassMembers_split (self : Extractor)
    (pre post : list MemberElement.t) (m : MemberElement.t) :
  ClassDeclarationLike.members (declaration self) = pre ++ m :: post →
  ∃ before here after,
    extractMembersLoop self pre [] = Ok before
    ∧ entriesOfMember self m = Ok here
    ∧ extractMembersLoop self post [] = Ok after
    ∧ extractAllClassMembers self (declaration self)
      = Ok (before ++ here ++ after).
Proof.
  intros Hmem.
  destruct (extractMembersLoop_filter_map self pre) as (k1 & before & Hpre & _).
  { rewrite Hmem. set_solver. }
  destruct (extractMembersLoop_filter_map self [m]) as (k2 & here & Hm & _).
  { intros x Hx. apply list_elem_of_singleton in Hx as ->.
    rewrite Hmem, elem_of_app, elem_of_cons. tauto. }
  destruct (extractMembersLoop_filter_map self post) as (k3 & after & Hpost & _).
  { rewrite Hmem. set_solver. }
  exists before, here, after. unfold entriesOfMember.
  repeat (split; [done|]).
  unfold extractAllClassMembers.
  rewrite Hmem, extractMembersLoop_app, Hpre, extractMembersLoop_cons.
  unfold entriesOfMember. rewrite Hm, Hpost. done.
Qed.

(** A member that is not excluded either is the dropped implementation and
    yields nothing, or yields an entry. *)
Lemma extractClassMember_cases (self : Extractor) (m : MemberElement.t) :
  isMemberExcluded m = false →
  m ∈ ClassDeclarationLike.members (declaration self) →
  (isSkippedImplementation (declaration self) m
   ∧ extractClassMember self m = Ok None)
  ∨ (¬ isSkippedImplementation (declaration self) m
     ∧ ∃ e, extractClassMember self m = Ok (Some e)).
Proof.
  intros Hex Hin.
  destruct (isMemberExcluded_false m Hex) as (n & Hname & Hdoc & _).
  unfold isSkippedImplementation. rewrite Hname.
  destruct (isMethod m) eqn:Hmeth.
  - rewrite (extractClassMember_method self m n) by done.
    assert (Hkind : MemberElement.kind m ≠ MethodSignature
                    ↔ MemberElement.kind m = MethodDeclaration).
    { unfold isMethod, isMethodDeclaration, isMethodSignature in Hmeth.
      destruct (MemberElement.kind m); simpl in Hmeth; done. }
    destruct (decide (MemberElement.kind m ≠ MethodSignature
                      ∧ length (sameNamed (declaration self) n) ≠ 1
                      ∧ atLastPosition (declaration self) n m)) as [Hs | Hs].
    + left. rewrite bool_decide_eq_true_2 by done. tauto.
    + right. rewrite bool_decide_eq_false_2 by done. split; [tauto | eauto].
  - right. split.
    { intros [Hk _]. unfold isMethod, isMethodDeclaration in Hmeth.
      rewrite Hk in Hmeth. done. }
    unfold extractClassMember. rewrite Hmeth.
    unfold isDocumentableMember in Hdoc. rewrite Hmeth in Hdoc. simpl in Hdoc.
    destruct (isProperty m) eqn:Hprop.
    + destruct (extractClassProperty_named self m n Hname) as (e & -> & _).
      simpl. eauto.
    + simpl in Hdoc. rewrite Hdoc.
      destruct (extractGetterSetter_named self m n Hname) as (e & -> & _).
      simpl. eauto.
Qed.

Lemma extractMembersLoop_exact (self : Extractor) (l : list MemberElement.t) :
  l ⊆ ClassDeclarationLike.members (declaration self) →
  ∃ entries,
    extractMembersLoop self l [] = Ok entries
    ∧ Forall2 (λ m e, extractClassMember self m = Ok (Some e))
        (filter (λ m, isMemberExcluded m = false
                      ∧ ¬ isSkippedImplementation (declaration self) m) l)
        entries.
Proof.
  induction l as [|m l IH]; intros Hsub.
  - exists []. split; [done | constructor].
  - destruct IH as (entries & Hl & Hf).
    { intros x Hx. apply Hsub. by apply list_elem_of_further. }
    rewrite extractMembersLoop_cons, entriesOfMember_unfold, Hl.
    destruct (isMemberExcluded m) eqn:Hex; simpl.
    + exists entries. rewrite filter_cons_False; [done|].
      intros [Hno _]. congruence.
    + destruct (extractClassMember_cases self m Hex)
        as [[Hskip Hm] | [Hkeep (e & Hm)]];
        [apply Hsub, list_elem_of_here | ..]; rewrite Hm; simpl.
      * exists entries. rewrite filter_cons_False; [done|]. tauto.
      * exists (e :: entries). rewrite filter_cons_True by done.
        split; [done | by constructor].
Qed.

Lemma extractMembersLoop_omap (self : Extractor) (l : list MemberElement.t) :
  l ⊆ ClassDeclarationLike.members (declaration self) →
  extractMembersLoop self l [] = Ok (omap (documentedEntry self) l).
Proof.
  induction l as [|m l IH]; intros Hsub; [done|].
  rewrite extractMembersLoop_cons, entriesOfMember_unfold, IH.
  2:{ intros x Hx. apply Hsub. by apply list_elem_of_further. }
  simpl. unfold documentedEntry at 2.
  destruct (isMemberExcluded m) eqn:Hex; simpl; [done|].
  destruct (extractClassMember_total self m Hex) as ([e|] & ->);
    [apply Hsub, list_elem_of_here | done | done].
Qed.

End extractor_facts.

Section extraction_properties.
Context `{!Collaborators}.

Lemma extract_base_total (self : Extractor) :
  ∃ entry, extract_base self = Ok entry
    ∧ extractAllClassMembers self (declaration self)
      = Ok (ClassEntry.members entry)
    ∧ ClassEntry.entryType entry
      = (if isInterfaceDeclaration (declaration self) then Interface
         else UndecoratedClass)
    ∧ ClassEntry.isStandalone entry = None
    ∧ ClassEntry.selector entry = None
    ∧ ClassEntry.exportAs entry = None
    ∧ ClassEntry.pipeName entry = None.
Proof.
  destruct (extractMembersLoop_filter_map self
              (ClassDeclarationLike.members (declaration self)))
    as (kept & entries & Hl & _); [done|].
  unfold extract_base, extractAllClassMembers. rewrite Hl. simpl.
  eexists. split; [reflexivity|]. simpl. done.
Qed.

Lemma extract_total (self : Extractor) :
  ∃ entry, extract self = Ok entry
    ∧ extractAllClassMembers self (declaration self)
      = Ok (ClassEntry.members entry).
Proof.
  destruct (extract_base_total self) as (entry & He & Hm & _).
  unfold extract. rewrite He. simpl.
  destruct self; eexists; (split; [reflexivity|]); simpl; done.
Qed.

Lemma some_kind_elem_of (kind : SyntaxKind) (mods : list SyntaxKind) :
  some_kind kind mods = true ↔ kind ∈ mods.
Proof.
  unfold some_kind. rewrite existsb_exists. split.
  - intros (x & Hx & Heq). apply bool_decide_eq_true in Heq as ->.
    by apply list_elem_of_In.
  - intros Hin. exists kind. split; [by apply list_elem_of_In|].
    by apply bool_decide_eq_true.
Qed.

(** C3.  A member that has no name, or is neither method-like, property-like
    nor accessor-like, or carries a [private] modifier, or whose name the
    framework-private filter accepts, is excluded and adds no entry: the
    members list of the declaration is the one extracted from the other
    members alone, whatever else the member carries. *)
Theorem excluded_member_emits_no_entry (self : Extractor)
    (pre post : list MemberElement.t) (m : MemberElement.t) :
  ClassDeclarationLike.members (declaration self) = pre ++ m :: post →
  (MemberElement.name m = None
   ∨ isDocumentableMember m = false
   ∨ (∃ mods, MemberElement.modifiers m = Some mods ∧ PrivateKeyword ∈ mods)
   ∨ (∃ n, MemberElement.name m = Some n ∧ isAngularPrivateName n = true)) →
  isMemberExcluded m = true
  ∧ entriesOfMember self m = Ok []
  ∧ ∃ entry, extract self = Ok entry
      ∧ extractMembersLoop self (pre ++ post) [] = Ok (ClassEntry.members entry).
Proof.
  intros Hmem Hwhy.
  assert (Hex : isMemberExcluded m = true).
  { unfold isMemberExcluded.
    destruct (MemberElement.name m) as [n|] eqn:Hname; [|done].
    destruct Hwhy as [Hnone | [Hdoc | [(mods & Hmods & Hpriv) | (n' & Hn & Hp)]]].
    - done.
    - by rewrite Hdoc.
    - rewrite Hmods. apply some_kind_elem_of in Hpriv. rewrite Hpriv.
      by rewrite orb_true_r.
    - injection Hn as <-. rewrite Hp. by rewrite orb_true_r. }
  split; [done|]. split.
  { rewrite entriesOfMember_unfold, Hex. done. }
  destruct (extract_total self) as (entry & He & Hall).
  exists entry. split; [done|]. rewrite <- Hall.
  unfold extractAllClassMembers.
  rewrite Hmem, !extractMembersLoop_app.
  destruct (extractMembersLoop self pre []); simpl; [|done].
  by rewrite Hex.
Qed.

(** C4.  The members list of [extract] is an order-preserving filter-map of
    the source members: it is the list of the entries of the members, taken
    in source order, each member giving at most one entry and an excluded
    member none.  The members that give an entry are the non-excluded ones
    that are not the dropped implementation of an overload group; each entry
    is the extraction of its member, and nothing is reordered, merged or
    duplicated. *)
Theorem extract_members_preserve_source_order (self : Extractor) :
  ∃ entry,
    extract self = Ok entry
    ∧ ClassEntry.members entry
      = omap (documentedEntry self)
          (ClassDeclarationLike.members (declaration self))
    ∧ Forall2 (λ m e, extractClassMember self m = Ok (Some e))
        (filter (λ m, isMemberExcluded m = false
                      ∧ ¬ isSkippedImplementation (declaration self) m)
           (ClassDeclarationLike.members (declaration self)))
        (ClassEntry.members entry)
    ∧ filter (λ m, isMemberExcluded m = false
                   ∧ ¬ isSkippedImplementation (declaration self) m)
        (ClassDeclarationLike.members (declaration self))
      `sublist_of`
      filter (λ m, isMemberExcluded m = false)
        (ClassDeclarationLike.members (declaration self)).
Proof.
  destruct (extract_total self) as (entry & He & Hall).
  destruct (extractMembersLoop_exact self
              (ClassDeclarationLike.members (declaration self)))
    as (entries & Hl & Hf); [done|].
  unfold extractAllClassMembers in Hall. rewrite Hl in Hall.
  injection Hall as Hentries. rewrite Hentries in Hf, Hl.
  rewrite extractMembersLoop_omap in Hl by done. injection Hl as Homap.
  exists entry. split; [done|]. split; [done|]. split; [done|].
  rewrite <- (list_filter_filter_l
                (λ m, isMemberExcluded m = false
                      ∧ ¬ isSkippedImplementation (declaration self) m)
                (λ m, isMemberExcluded m = false)) by tauto.
  apply sublist_filter.
Qed.

Lemma sameNamed_split (d : ClassDeclarationLike.t) (n : string)
    (pre post : list MemberElement.t) (m : MemberElement.t) :
  ClassDeclarationLike.members d = pre ++ m :: post →
  MemberElement.name m = Some n →
  length (sameNamed d n)
  = S (length (filter (λ o, MemberElement.name o = Some n) (pre ++ post))).
Proof.
  intros Hmem Hname. unfold sameNamed.
  rewrite Hmem, !filter_app, filter_cons_True by done.
  rewrite !length_app. simpl. lia.
Qed.

Lemma filter_none_named (n : string) (l : list MemberElement.t) :
  Forall (λ other, MemberElement.name other ≠ Some n) l →
  filter (λ o, MemberElement.name o = Some n) l = [].
Proof.
  induction 1 as [|x l Hx Hl IH]; [done|].
  by rewrite filter_cons_False.
Qed.

(** The entries a method of the declaration adds. *)
Lemma entriesOfMember_method (self : Extractor) (m : MemberElement.t)
    (n : string) :
  isMethod m = true →
  isMemberExcluded m = false →
  MemberElement.name m = Some n →
  m ∈ ClassDeclarationLike.members (declaration self) →
  entriesOfMember self m =
    Ok (if bool_decide (MemberElement.kind m ≠ MethodSignature
                        ∧ length (sameNamed (declaration self) n) ≠ 1
                        ∧ atLastPosition (declaration self) n m)
        then []
        else [MethodMember (extractMethod self m)]).
Proof.
  intros Hmeth Hex Hname Hin.
  rewrite entriesOfMember_unfold, Hex.
  rewrite (extractClassMember_method self m n) by done. simpl.
  by destruct (bool_decide _).
Qed.

(** C1 (as the code has it).  In a group of two or more members sharing one
    name, a non-excluded method adds a [Method] entry unless it is a method
    declaration at the last source position of the group: the overload
    signatures are documented and the implementation is skipped.  A method
    signature, as in an interface, always adds its entry. *)
Theorem overload_group_documents_signatures (self : Extractor)
    (pre post : list MemberElement.t) (m : MemberElement.t) (n : string) :
  ClassDeclarationLike.members (declaration self) = pre ++ m :: post →
  isMethod m = true →
  isMemberExcluded m = false →
  MemberElement.name m = Some n →
  (∃ other, other ∈ pre ++ post ∧ MemberElement.name other = Some n) →
  ∃ before after,
    extractMembersLoop self pre [] = Ok before
    ∧ extractMembersLoop self post [] = Ok after
    ∧ extractAllClassMembers self (declaration self)
      = Ok (before
            ++ (if bool_decide (MemberElement.kind m = MethodDeclaration
                                ∧ atLastPosition (declaration self) n m)
                then []
                else [MethodMember (extractMethod self m)])
            ++ after).
Proof.
  intros Hmem Hmeth Hex Hname (other & Hother & Hon).
  destruct (extractAllClassMembers_split self pre post m Hmem)
    as (before & here & after & Hpre & Hhere & Hpost & Hall).
  exists before, after. split; [done|]. split; [done|].
  rewrite Hall. do 2 f_equal.
  rewrite (entriesOfMember_method self m n) in Hhere; [|done..|].
  2:{ rewrite Hmem, elem_of_app, elem_of_cons. tauto. }
  injection Hhere as <-.
  assert (Hlen : length (sameNamed (declaration self) n) ≠ 1).
  { rewrite (sameNamed_split _ n pre post m) by done.
    assert (Hin : other ∈ filter (λ o, MemberElement.name o = Some n) (pre ++ post))
      by (by apply list_elem_of_filter).
    destruct (filter _ (pre ++ post)); [by apply elem_of_nil in Hin | simpl; lia]. }
  assert (Hkind : MemberElement.kind m ≠ MethodSignature
                  ↔ MemberElement.kind m = MethodDeclaration).
  { unfold isMethod, isMethodDeclaration, isMethodSignature in Hmeth.
    destruct (MemberElement.kind m); simpl in Hmeth; done. }
  erewrite bool_decide_ext; [reflexivity|]. tauto.
Qed.

(** C2 (as the code has it).  For a method whose name no other member of the
    declaration carries, the overload resolver answers [false] (there is no
    overload it could implement), and the method, when it is not excluded,
    adds a [Method] entry. *)
Theorem lone_method_is_documented (self : Extractor)
    (pre post : list MemberElement.t) (m : MemberElement.t) (n : string) :
  ClassDeclarationLike.members (declaration self) = pre ++ m :: post →
  isMethod m = true →
  MemberElement.name m = Some n →
  Forall (λ other, MemberElement.name other ≠ Some n) (pre ++ post) →
  isImplementationForOverload self m = Ok false
  ∧ MethodEntry.memberType (extractMethod self m) = Method
  ∧ (isMemberExcluded m = false →
     ∃ before after,
       extractMembersLoop self pre [] = Ok before
       ∧ extractMembersLoop self post [] = Ok after
       ∧ extractAllClassMembers self (declaration self)
         = Ok (before ++ [MethodMember (extractMethod self m)] ++ after)).
Proof.
  intros Hmem Hmeth Hname Hlone.
  assert (Hin : m ∈ ClassDeclarationLike.members (declaration self)).
  { rewrite Hmem, elem_of_app, elem_of_cons. tauto. }
  assert (Hlen : length (sameNamed (declaration self) n) = 1).
  { rewrite (sameNamed_split _ n pre post m) by done.
    by rewrite (filter_none_named n (pre ++ post)). }
  split; [|split; [done|]].
  - destruct (decide (MemberElement.kind m = MethodSignature)) as [Hsig | Hsig].
    + unfold isImplementationForOverload.
      by rewrite bool_decide_eq_true_2.
    + rewrite (isImplementationForOverload_spec self m n) by done.
      rewrite bool_decide_eq_false_2; [done|]. tauto.
  - intros Hex.
    destruct (extractAllClassMembers_split self pre post m Hmem)
      as (before & here & after & Hpre & Hhere & Hpost & Hall).
    exists before, after. split; [done|]. split; [done|].
    rewrite Hall. do 2 f_equal.
    rewrite (entriesOfMember_method self m n) in Hhere by done.
    rewrite bool_decide_eq_false_2 in Hhere by tauto.
    by injection Hhere as <-.
Qed.

(** C5.  [extractClass] never throws and picks its extractor by the first of
    the directive, pipe and module lookups that returns a record: directive
    metadata gives the directive-flavoured entry whatever the other lookups
    return, and no metadata at all gives the generic class entry. *)
Theorem extractClass_probes_directive_pipe_module
    (classDeclaration : ClassDeclarationLike.t) (metadataReader : MetadataReader) :
  ∃ entry,
    extractClass classDeclaration metadataReader = Ok entry
    ∧ match getDirectiveMetadata metadataReader {| node := classDeclaration |},
            getPipeMetadata metadataReader {| node := classDeclaration |},
            getNgModuleMetadata metadataReader {| node := classDeclaration |}
      with
      | Some metadata, _, _ =>
          extract (DirectiveExtractor classDeclaration metadata) = Ok entry
          ∧ ClassEntry.entryType entry
            = (if DirectiveMeta.isComponent metadata then Component else Directive)
          ∧ ClassEntry.isStandalone entry
            = Some (DirectiveMeta.isStandalone metadata)
          ∧ ClassEntry.selector entry
            = Some (default "" (DirectiveMeta.selector metadata))
          ∧ ClassEntry.exportAs entry
            = Some (default [] (DirectiveMeta.exportAs metadata))
          ∧ ClassEntry.pipeName entry = None
      | None, Some metadata, _ =>
          extract (PipeExtractor classDeclaration metadata) = Ok entry
          ∧ ClassEntry.entryType entry = Pipe
          ∧ ClassEntry.pipeName entry = Some (PipeMeta.name metadata)
          ∧ ClassEntry.isStandalone entry = Some (PipeMeta.isStandalone metadata)
      | None, None, Some metadata =>
          extract (NgModuleExtractor classDeclaration metadata) = Ok entry
          ∧ ClassEntry.entryType entry = NgModule
      | None, None, None =>
          extract (ClassExtractor classDeclaration) = Ok entry
          ∧ ClassEntry.entryType entry
            = (if isInterfaceDeclaration classDeclaration then Interface
               else UndecoratedClass)
          ∧ ClassEntry.isStandalone entry = None
          ∧ ClassEntry.selector entry = None
          ∧ ClassEntry.exportAs entry = None
          ∧ ClassEntry.pipeName entry = None
      end.
Proof.
  unfold extractClass.
  destruct (getDirectiveMetadata _ _) as [dm|];
    [|destruct (getPipeMetadata _ _) as [pm|];
      [|destruct (getNgModuleMetadata _ _) as [nm|]]].
  all: match goal with
       | |- ∃ entry, extract ?self = _ ∧ _ =>
           destruct (extract_base_total self)
             as (base & Hb & _ & Ht & Hs & Hsel & Hexp & Hpn);
           unfold extract; rewrite Hb; simpl;
           eexists; (split; [reflexivity|]); simpl
       end.
  all: repeat split; done.
Qed.

(** C6.  For a property of a directive, the lookups keyed by the property's
    source name decide the binding tags: [Input] is among the member tags
    exactly when the input lookup finds a mapping, and then the entry records
    the binding alias and the required flag; [Output] exactly when the output
    lookup finds one, with its alias; the tags are those of the modifiers,
    then [Input], then [Output]. *)
Theorem directive_property_binding_tags (declaration : ClassDeclarationLike.t)
    (metadata : DirectiveMeta.t) (prop : MemberElement.t) (propName : string) :
  MemberElement.name prop = Some propName →
  let input : option InputMapping :=
    DirectiveMeta.inputs metadata ≫= (λ inputs, inputs !! propName) in
  let output : option InputOrOutput :=
    DirectiveMeta.outputs metadata ≫= (λ outputs, outputs !! propName) in
  ∃ entry,
    extractClassProperty (DirectiveExtractor declaration metadata) prop = Ok entry
    ∧ (isProperty prop = true →
       extractClassMember (DirectiveExtractor declaration metadata) prop
       = Ok (Some (PropertyMember entry)))
    ∧ PropertyEntry.memberTags entry
      = getMemberTags prop
        ++ match input with Some _ => [Input] | None => [] end
        ++ match output with Some _ => [Output] | None => [] end
    ∧ (Input ∈ PropertyEntry.memberTags entry ↔ is_Some input)
    ∧ (Output ∈ PropertyEntry.memberTags entry ↔ is_Some output)
    ∧ PropertyEntry.inputAlias entry = bindingPropertyName <$> input
    ∧ PropertyEntry.isRequiredInput entry = required <$> input
    ∧ PropertyEntry.outputAlias entry = outputBindingPropertyName <$> output.
Proof.
  intros Hname input output.
  destruct (extractClassProperty_base_named prop propName Hname)
    as (base & Hbase & _ & _ & Htags & Hia & Hreq & Hoa).
  assert (Hni : Input ∉ getMemberTags prop).
  { intros Hin. apply getMemberTags_no_binding_tag in Hin. tauto. }
  assert (Hno : Output ∉ getMemberTags prop).
  { intros Hin. apply getMemberTags_no_binding_tag in Hin. tauto. }
  assert (Hentry : ∃ entry,
    extractClassProperty (DirectiveExtractor declaration metadata) prop = Ok entry
    ∧ PropertyEntry.memberTags entry
      = getMemberTags prop
        ++ match input with Some _ => [Input] | None => [] end
        ++ match output with Some _ => [Output] | None => [] end
    ∧ PropertyEntry.inputAlias entry = bindingPropertyName <$> input
    ∧ PropertyEntry.isRequiredInput entry = required <$> input
    ∧ PropertyEntry.outputAlias entry = outputBindingPropertyName <$> output).
  { unfold extractClassProperty. rewrite Hbase. simpl.
    unfold getInputMetadata, getOutputMetadata. rewrite Hname. simpl.
    fold input. fold output.
    destruct input as [i|], output as [o|]; simpl;
      (eexists; split; [reflexivity|]); simpl;
      rewrite ?Htags, ?Hia, ?Hreq, ?Hoa, <- ?app_assoc, ?app_nil_r; done. }
  destruct Hentry as (entry & He & Het & Hea & Her & Heo).
  exists entry. split; [done|]. split.
  { intros Hprop. unfold extractClassMember.
    assert (isMethod prop = false) as ->.
    { unfold isProperty, isMethod, isPropertyDeclaration, isPropertySignature,
        isMethodDeclaration, isMethodSignature in *.
      destruct (MemberElement.kind prop); simpl in *; done. }
    rewrite Hprop, He. done. }
  split; [done|]. repeat split; try done.
  - rewrite Het, !elem_of_app. intros [Hin | [Hin | Hin]]; [done| |].
    + destruct input; [done | by apply elem_of_nil in Hin].
    + destruct output; [by apply list_elem_of_singleton in Hin
                       | by apply elem_of_nil in Hin].
  - intros [i Hi]. rewrite Het, Hi, !elem_of_app. right. left.
    by apply list_elem_of_singleton.
  - rewrite Het, !elem_of_app. intros [Hin | [Hin | Hin]]; [done| |].
    + destruct input; [by apply list_elem_of_singleton in Hin
                      | by apply elem_of_nil in Hin].
    + destruct output; [done | by apply elem_of_nil in Hin].
  - intros [o Ho]. rewrite Het, Ho, !elem_of_app. right. right.
    by apply list_elem_of_singleton.
Qed.

Lemma tagInTable_getTagForMemberModifier (a : SyntaxKind) :
  tagInTable a = getTagForMemberModifier a.
Proof. by destruct a. Qed.

Lemma elem_of_tableKeywords (a : SyntaxKind) :
  a ∈ tableKeywords ↔ is_Some (getTagForMemberModifier a).
Proof.
  unfold tableKeywords, modifierTagTable. simpl.
  rewrite !elem_of_cons, elem_of_nil.
  destruct a; simpl; split;
    try (intros _; by eexists);
    try (intros Hin; intuition discriminate);
    try (intros [tag Htag]; discriminate);
    tauto.
Qed.

(** The tags of a modifier list repeat exactly when a keyword of the table
    repeats. *)
Lemma NoDup_getMemberTagsFromModifiers_iff (mods : list SyntaxKind) :
  NoDup (getMemberTagsFromModifiers mods)
  ↔ NoDup (filter (λ a, a ∈ tableKeywords) mods).
Proof.
  induction mods as [|a mods IH]; simpl.
  - rewrite filter_nil. split; intros _; constructor.
  - destruct (getTagForMemberModifier a) as [tag|] eqn:Htag.
    + rewrite filter_cons_True by (apply elem_of_tableKeywords; eauto).
      rewrite !NoDup_cons, IH.
      rewrite elem_of_getMemberTagsFromModifiers, list_elem_of_filter.
      split; intros [Hnotin Hnd]; (split; [|done]).
      * intros [_ Hin]. apply Hnotin. eauto.
      * intros (b & Hb & Hbt).
        rewrite <- (getTagForMemberModifier_inj a b tag) in Hb by done.
        apply Hnotin. split; [|done]. apply elem_of_tableKeywords. eauto.
    + rewrite filter_cons_False; [done|].
      rewrite elem_of_tableKeywords, Htag. by intros [? ?].
Qed.

(** C7 (as the code has it).  [getMemberTags] maps the modifiers, in their
    order, through the table static to Static, readonly to Readonly,
    protected to Protected, abstract to Abstract (a modifier without a row
    adds nothing) and then appends [Optional] when the member has the
    optional marker; this is the tag list of a method entry and the one a
    property entry starts from, after which the directive extractor appends
    only [Input] and [Output].  The list has no repeated tag exactly when
    none of the four keywords of the table is repeated among the modifiers;
    repeated decorators or other modifiers do not matter. *)
Theorem member_tags_follow_modifier_table (self : Extractor)
    (m : MemberElement.t) :
  getMemberTags m
  = omap tagInTable (default [] (MemberElement.modifiers m))
    ++ (if MemberElement.questionToken m then [Optional] else [])
  ∧ MethodEntry.memberTags (extractMethod self m) = getMemberTags m
  ∧ (∀ n, MemberElement.name m = Some n →
       ∃ e, extractClassProperty_base m = Ok e
            ∧ PropertyEntry.memberTags e = getMemberTags m)
  ∧ (∀ d metadata n, MemberElement.name m = Some n →
       ∃ e bindings,
         extractClassProperty (DirectiveExtractor d metadata) m = Ok e
         ∧ PropertyEntry.memberTags e = getMemberTags m ++ bindings
         ∧ bindings `sublist_of` [Input; Output])
  ∧ (NoDup (getMemberTags m)
     ↔ NoDup (filter (λ a, a ∈ tableKeywords)
                (default [] (MemberElement.modifiers m)))).
Proof.
  split; [|split; [done|split; [|split]]].
  - unfold getMemberTags. rewrite getMemberTagsFromModifiers_omap.
    rewrite (list_omap_ext tagInTable getTagForMemberModifier _
               (default [] (MemberElement.modifiers m))).
    + destruct (MemberElement.questionToken m); [done | by rewrite app_nil_r].
    + apply Forall2_same_length_lookup. split; [done|].
      intros i a b Ha Hb. rewrite Ha in Hb. injection Hb as <-.
      apply tagInTable_getTagForMemberModifier.
  - intros n Hname.
    destruct (extractClassProperty_base_named m n Hname)
      as (e & He & _ & _ & Htags & _).
    eauto.
  - intros d metadata n Hname.
    destruct (extractClassProperty_base_named m n Hname)
      as (base & Hbase & _ & _ & Htags & _).
    unfold extractClassProperty. rewrite Hbase. simpl.
    unfold getInputMetadata, getOutputMetadata. rewrite Hname. simpl.
    destruct (DirectiveMeta.inputs metadata ≫= _) as [i|];
      destruct (DirectiveMeta.outputs metadata ≫= _) as [o|]; simpl;
      eexists.
    + exists [Input; Output]. split; [reflexivity|]. simpl.
      rewrite Htags, <- app_assoc. done.
    + exists [Input]. split; [reflexivity|]. simpl. rewrite Htags.
      split; [done|]. by apply sublist_skip, sublist_cons.
    + exists [Output]. split; [reflexivity|]. simpl. rewrite Htags.
      split; [done|]. by apply sublist_cons, sublist_skip.
    + exists []. split; [reflexivity|]. rewrite Htags, app_nil_r.
      split; [done|]. apply sublist_nil_l.
  - unfold getMemberTags.
    rewrite <- NoDup_getMemberTagsFromModifiers_iff.
    destruct (MemberElement.questionToken m); [|done].
    rewrite NoDup_app. split; [tauto|]. intros Hnd.
    split; [done|]. split; [|apply NoDup_singleton].
    intros tag Hin ->%list_elem_of_singleton.
    apply elem_of_getMemberTagsFromModifiers in Hin as (a & _ & Ha).
    apply getTagForMemberModifier_range in Ha. tauto.
Qed.

Lemma entriesOfMember_accessor (self : Extractor) (a : MemberElement.t) :
  isAccessor a = true →
  isMemberExcluded a = false →
  ∃ e, extractGetterSetter self a = Ok e
       ∧ entriesOfMember self a = Ok [PropertyMember e]
       ∧ PropertyEntry.memberType e = (if isGetAccessor a then Getter else Setter).
Proof.
  intros Hacc Hex.
  destruct (isMemberExcluded_false a Hex) as (n & Hname & _ & _).
  destruct (extractGetterSetter_named self a n Hname) as (e & He & _ & Ht).
  exists e. split; [done|]. split; [|done].
  rewrite entriesOfMember_unfold, Hex. unfold extractClassMember.
  assert (isMethod a = false ∧ isProperty a = false) as [-> ->].
  { unfold isAccessor, isGetAccessor, isSetAccessor, isMethod, isProperty,
      isMethodDeclaration, isMethodSignature, isPropertyDeclaration,
      isPropertySignature in *.
    destruct (MemberElement.kind a); simpl in *; done. }
  rewrite Hacc, He. done.
Qed.

(** C8.  A getter and a setter of one name, neither excluded, add two
    separate property entries, of member types [Getter] and [Setter], in the
    order of the two accessors in the source; the overload rule drops
    neither. *)
Theorem accessor_pair_emits_getter_and_setter (self : Extractor)
    (pre mid post : list MemberElement.t) (first second : MemberElement.t)
    (n : string) :
  ClassDeclarationLike.members (declaration self)
  = pre ++ first :: mid ++ second :: post →
  MemberElement.name first = Some n →
  MemberElement.name second = Some n →
  (MemberElement.kind first = GetAccessor ∧ MemberElement.kind second = SetAccessor
   ∨ MemberElement.kind first = SetAccessor ∧ MemberElement.kind second = GetAccessor) →
  isMemberExcluded first = false →
  isMemberExcluded second = false →
  ∃ before between after e1 e2,
    extractAllClassMembers self (declaration self)
    = Ok (before ++ PropertyMember e1 :: between ++ PropertyMember e2 :: after)
    ∧ extractMembersLoop self pre [] = Ok before
    ∧ extractMembersLoop self mid [] = Ok between
    ∧ extractMembersLoop self post [] = Ok after
    ∧ extractGetterSetter self first = Ok e1
    ∧ extractGetterSetter self second = Ok e2
    ∧ PropertyEntry.memberType e1
      = (if bool_decide (MemberElement.kind first = GetAccessor) then Getter else Setter)
    ∧ PropertyEntry.memberType e2
      = (if bool_decide (MemberElement.kind second = GetAccessor) then Getter else Setter)
    ∧ PropertyEntry.memberType e1 ≠ PropertyEntry.memberType e2.
Proof.
  intros Hmem Hn1 Hn2 Hkinds Hex1 Hex2.
  assert (Hacc : isAccessor first = true ∧ isAccessor second = true).
  { unfold isAccessor, isGetAccessor, isSetAccessor.
    destruct Hkinds as [[-> ->] | [-> ->]]; done. }
  destruct Hacc as [Hacc1 Hacc2].
  destruct (entriesOfMember_accessor self first Hacc1 Hex1)
    as (e1 & He1 & Hhere1 & Ht1).
  destruct (entriesOfMember_accessor self second Hacc2 Hex2)
    as (e2 & He2 & Hhere2 & Ht2).
  destruct (extractAllClassMembers_split self pre (mid ++ second :: post) first Hmem)
    as (before & here1 & rest & Hpre & Hh1 & Hrest & Hall).
  rewrite Hhere1 in Hh1. injection Hh1 as <-.
  rewrite extractMembersLoop_app, extractMembersLoop_cons, Hhere2 in Hrest.
  destruct (extractMembersLoop self mid []) as [between|]; simpl in Hrest; [|done].
  destruct (extractMembersLoop self post []) as [after|]; simpl in Hrest; [|done].
  injection Hrest as <-.
  exists before, between, after, e1, e2.
  split; [by rewrite Hall|]. do 5 (split; [done|]).
  unfold isGetAccessor in Ht1, Ht2. rewrite Ht1, Ht2.
  do 2 (split; [done|]).
  destruct Hkinds as [[-> ->] | [-> ->]]; done.
Qed.

End extraction_properties.

(** ** The skip-hydration checks *)

Section hydration_properties.
Variable toLowerCase : string → string.

Lemma scanAttrNames_cons (value : TAttribute) (rest : list TAttribute) :
  scanAttrNames toLowerCase (value :: rest) =
    match value with
    | AttrMarker _ => false
    | AttrString s =>
        if bool_decide (toLowerCase s = SKIP_HYDRATION_ATTR_NAME_LOWER_CASE)
        then true
        else scanAttrNames toLowerCase (drop 1 rest)
    | AttrSelector _ => scanAttrNames toLowerCase (drop 1 rest)
    end.
Proof.
  destruct value, rest; simpl; try done; by destruct (bool_decide _).
Qed.

Lemma lookup_even_cons (value : TAttribute) (rest : list TAttribute) (k : nat) :
  (value :: rest) !! (2 * S k) = drop 1 rest !! (2 * k).
Proof.
  replace (2 * S k) with (S (S (2 * k))) by lia.
  rewrite lookup_drop. done.
Qed.

(** Past a first entry that is neither a marker nor the name, the scan goes on
    two entries further. *)
Lemma staticNameMatches_skip (value : TAttribute) (rest : list TAttribute) :
  (∀ n, value ≠ AttrMarker n) →
  (∀ s, value = AttrString s →
        toLowerCase s ≠ SKIP_HYDRATION_ATTR_NAME_LOWER_CASE) →
  staticNameMatches toLowerCase (value :: rest) ↔ staticNameMatches toLowerCase (drop 1 rest).
Proof.
  intros Hnomark Hnoname. split.
  - intros (k & s & Hk & Hs & Hbefore). destruct k as [|k].
    + simpl in Hk. injection Hk as ->. by destruct (Hnoname s).
    + exists k, s. rewrite lookup_even_cons in Hk. split; [done|]. split; [done|].
      intros j n Hj. rewrite <- lookup_even_cons with (value := value).
      apply Hbefore. lia.
  - intros (k & s & Hk & Hs & Hbefore). exists (S k), s.
    rewrite lookup_even_cons. split; [done|]. split; [done|].
    intros [|j] n Hj.
    + simpl. intros [= ->]. by destruct (Hnomark n).
    + rewrite lookup_even_cons. apply Hbefore. lia.
Qed.

Lemma scanAttrNames_spec (attrs : list TAttribute) :
  scanAttrNames toLowerCase attrs = true ↔ staticNameMatches toLowerCase attrs.
Proof.
  remember (length attrs) as len eqn:Hlen. revert attrs Hlen.
  induction len as [len IH] using lt_wf_ind. intros attrs Hlen.
  destruct attrs as [|value rest].
  - simpl. split; [done|]. intros (k & s & Hk & _). done.
  - assert (IHrest : scanAttrNames toLowerCase (drop 1 rest) = true
                     ↔ staticNameMatches toLowerCase (drop 1 rest)).
    { apply (IH (length (drop 1 rest))); [|done].
      rewrite Hlen, length_drop. simpl. lia. }
    rewrite scanAttrNames_cons. destruct value as [s | n | sel].
    + destruct (decide (toLowerCase s = SKIP_HYDRATION_ATTR_NAME_LOWER_CASE))
        as [Hs | Hs].
      * rewrite bool_decide_eq_true_2 by done. split; [|done].
        intros _. exists 0, s. split; [done|]. split; [done|]. intros; lia.
      * rewrite bool_decide_eq_false_2 by done.
        rewrite staticNameMatches_skip; [done|done|]. by intros s' [= <-].
    + split; [done|]. intros (k & s & Hk & _ & Hbefore). destruct k as [|k].
      * done.
      * by destruct (Hbefore 0 n ltac:(lia)).
    + rewrite staticNameMatches_skip; done.
Qed.

(** C10.  [hasSkipHydrationAttrOnTNode] is false for null [mergedAttrs];
    otherwise it is true exactly when an even-indexed entry is a string whose
    lower-cased text is the skip-hydration name and no even index before it
    holds a numeric marker.  So the scan stops with false at the first marker
    it reaches, and the name is never matched after it. *)
Theorem hasSkipHydrationAttrOnTNode_static_section (tNode : TNode) :
  (mergedAttrs tNode = None →
   hasSkipHydrationAttrOnTNode toLowerCase tNode = false)
  ∧ ∀ attrs, mergedAttrs tNode = Some attrs →
      (hasSkipHydrationAttrOnTNode toLowerCase tNode = true
       ↔ staticNameMatches toLowerCase attrs)
      ∧ ∀ k n,
          attrs !! (2 * k) = Some (AttrMarker n) →
          (∀ j s, j < k → attrs !! (2 * j) = Some (AttrString s) →
                  toLowerCase s ≠ SKIP_HYDRATION_ATTR_NAME_LOWER_CASE) →
          hasSkipHydrationAttrOnTNode toLowerCase tNode = false.
Proof.
  unfold hasSkipHydrationAttrOnTNode. split.
  - by intros ->.
  - intros attrs ->. split; [apply scanAttrNames_spec|].
    intros k n Hmarker Hnoname. apply not_true_is_false.
    intros (k' & s & Hk' & Hs & Hbefore)%scanAttrNames_spec.
    destruct (lt_eq_lt_dec k' k) as [[Hlt | ->] | Hgt].
    + by destruct (Hnoname k' s Hlt Hk').
    + congruence.
    + by destruct (Hbefore k n Hgt).
Qed.

Lemma walkParents_spec (tNode : TNode) :
  walkParents toLowerCase tNode = true ↔
  ∃ a, a ∈ tNode :: ancestors tNode
       ∧ hasSkipHydrationAttrOnTNode toLowerCase a = true.
Proof.
  induction tNode as [attrs | attrs p IH] using TNode_parent_ind.
  - simpl. destruct (hasSkipHydrationAttrOnTNode _ _) eqn:Hhere.
    + split; [|done]. intros _. eexists. split; [apply list_elem_of_here | done].
    + split; [done|]. intros (a & Ha & Hskip).
      apply list_elem_of_singleton in Ha as ->. congruence.
  - simpl. destruct (hasSkipHydrationAttrOnTNode _ (mkTNode attrs (Some p)))
      eqn:Hhere.
    + split; [|done]. intros _. eexists. split; [apply list_elem_of_here | done].
    + rewrite IH. split.
      * intros (a & Ha & Hskip). exists a. split; [by apply list_elem_of_further | done].
      * intros (a & Ha & Hskip). apply elem_of_cons in Ha as [-> | Ha].
        -- congruence.
        -- eauto.
Qed.

(** C9.  [isInSkipHydrationBlock] starts at the parent: it is true exactly
    when some strict ancestor carries the attribute, and false for a node that
    carries the attribute itself while none of its ancestors does. *)
Theorem isInSkipHydrationBlock_strict_ancestors (tNode : TNode) :
  (isInSkipHydrationBlock toLowerCase tNode = true
   ↔ ∃ a, a ∈ ancestors tNode
          ∧ hasSkipHydrationAttrOnTNode toLowerCase a = true)
  ∧ (hasSkipHydrationAttrOnTNode toLowerCase tNode = true →
     (∀ a, a ∈ ancestors tNode →
           hasSkipHydrationAttrOnTNode toLowerCase a = false) →
     isInSkipHydrationBlock toLowerCase tNode = false).
Proof.
  assert (Hiff : isInSkipHydrationBlock toLowerCase tNode = true
                 ↔ ∃ a, a ∈ ancestors tNode
                        ∧ hasSkipHydrationAttrOnTNode toLowerCase a = true).
  { unfold isInSkipHydrationBlock. destruct tNode as [attrs [p|]]; simpl.
    - apply walkParents_spec.
    - split; [done|]. intros (a & Ha & _). by apply elem_of_nil in Ha. }
  split; [done|].
  intros _ Hnone. apply not_true_is_false. intros (a & Ha & Hskip)%Hiff.
  rewrite (Hnone a Ha) in Hskip. done.
Qed.

End hydration_properties.

(** ** Examples and instances *)

Example scenario_members :
  extractAllClassMembers (ClassExtractor scenario) scenario
  = Ok [MethodMember (extractMethod (ClassExtractor scenario) (method "go" 0));
        MethodMember (extractMethod (ClassExtractor scenario) (method "run" 10))].
Proof. reflexivity. Qed.

Example slider_is_directive :
  ClassEntry.entryType <$> extractClass slider directiveAndPipeReader = Ok Directive
  ∧ ClassEntry.entryType <$> extractClass slider noMetadataReader
    = Ok UndecoratedClass.
Proof. split; vm_compute; reflexivity. Qed.

Example name_after_marker_not_matched :
  scanAttrNames asciiToLowerCase markerThenName = false
  ∧ scanAttrNames asciiToLowerCase [AttrString "NGSKIPHYDRATION"] = true
  ∧ scanAttrNames asciiToLowerCase
      [AttrString "title"; AttrString "ngSkipHydration"] = false.
Proof. repeat split; reflexivity. Qed.

(** C1, counterexample.  Of three overloads of [run], the two signatures at
    positions 10 and 20 each add an entry and the implementation at position
    30 adds none; the two method signatures of an interface both add an
    entry. *)
Lemma overload_implementation_skipped_counterexample :
  extractClassMember (ClassExtractor overloaded) (method "run" 10)
  = Ok (Some (MethodMember (extractMethod (ClassExtractor overloaded) (method "run" 10))))
  ∧ extractClassMember (ClassExtractor overloaded) (method "run" 20)
    = Ok (Some (MethodMember (extractMethod (ClassExtractor overloaded) (method "run" 20))))
  ∧ extractClassMember (ClassExtractor overloaded) (method "run" 30) = Ok None
  ∧ extractAllClassMembers (ClassExtractor overloaded) overloaded
    = Ok [MethodMember (extractMethod (ClassExtractor overloaded) (method "run" 10));
          MethodMember (extractMethod (ClassExtractor overloaded) (method "run" 20));
          MethodMember (extractMethod (ClassExtractor overloaded) (method "stop" 40))]
  ∧ extractAllClassMembers (ClassExtractor shape) shape
    = Ok [MethodMember (extractMethod (ClassExtractor shape) (methodSignature "area" 5));
          MethodMember (extractMethod (ClassExtractor shape) (methodSignature "area" 15))].
Proof. repeat split; reflexivity. Qed.

Lemma overload_group_documents_signatures_witness :
  ∃ before after,
    extractMembersLoop (ClassExtractor overloaded) [method "run" 10; method "run" 20] []
    = Ok before
    ∧ extractMembersLoop (ClassExtractor overloaded) [method "stop" 40] [] = Ok after
    ∧ extractAllClassMembers (ClassExtractor overloaded) overloaded
      = Ok (before ++ [] ++ after).
Proof.
  apply (overload_group_documents_signatures (ClassExtractor overloaded)
           [method "run" 10; method "run" 20] [method "stop" 40]
           (method "run" 30) "run").
  - reflexivity.
  - reflexivity.
  - reflexivity.
  - reflexivity.
  - exists (method "run" 10). split; [apply list_elem_of_here | reflexivity].
Defined.

(** C2, counterexample.  [stop] is the only member of its name, and the
    overload resolver answers [false] for it; a private method that is alone
    under its name adds no entry. *)
Lemma lone_method_resolver_counterexample :
  isImplementationForOverload (ClassExtractor overloaded) (method "stop" 40)
  = Ok false
  ∧ isImplementationForOverload (ClassExtractor overloaded) (method "stop" 40)
    ≠ Ok true
  ∧ extractAllClassMembers (ClassExtractor hidden) hidden = Ok [].
Proof. split; [reflexivity | split; [discriminate | reflexivity]]. Qed.

Lemma lone_method_is_documented_witness :
  isImplementationForOverload (ClassExtractor overloaded) (method "stop" 40)
  = Ok false
  ∧ ∃ before after,
      extractMembersLoop (ClassExtractor overloaded)
        [method "run" 10; method "run" 20; method "run" 30] [] = Ok before
      ∧ extractMembersLoop (ClassExtractor overloaded) [] [] = Ok after
      ∧ extractAllClassMembers (ClassExtractor overloaded) overloaded
        = Ok (before
              ++ [MethodMember (extractMethod (ClassExtractor overloaded)
                                  (method "stop" 40))]
              ++ after).
Proof.
  destruct (lone_method_is_documented (ClassExtractor overloaded)
              [method "run" 10; method "run" 20; method "run" 30] []
              (method "stop" 40) "stop") as (Hresolver & _ & Hentry).
  - reflexivity.
  - reflexivity.
  - reflexivity.
  - repeat constructor; discriminate.
  - split; [exact Hresolver | apply Hentry; reflexivity].
Defined.

Lemma excluded_member_emits_no_entry_witness :
  isMemberExcluded (property "secret" [PrivateKeyword] 0) = true
  ∧ entriesOfMember (ClassExtractor guarded) (property "secret" [PrivateKeyword] 0)
    = Ok []
  ∧ ∃ entry, extract (ClassExtractor guarded) = Ok entry
      ∧ extractMembersLoop (ClassExtractor guarded) ([] ++ [method "go" 5]) []
        = Ok (ClassEntry.members entry).
Proof.
  apply (excluded_member_emits_no_entry (ClassExtractor guarded) []
           [method "go" 5] (property "secret" [PrivateKeyword] 0)).
  - reflexivity.
  - right. right. left. exists [PrivateKeyword].
    split; [reflexivity | apply list_elem_of_here].
Defined.

Lemma directive_property_binding_tags_witness :
  ∃ entry,
    extractClassProperty (DirectiveExtractor slider sliderMeta)
      (property "value" [] 0) = Ok entry
    ∧ PropertyEntry.memberTags entry = [Input]
    ∧ Input ∈ PropertyEntry.memberTags entry
    ∧ (Output ∉ PropertyEntry.memberTags entry)
    ∧ PropertyEntry.inputAlias entry = Some "sliderValue"
    ∧ PropertyEntry.isRequiredInput entry = Some true
    ∧ PropertyEntry.outputAlias entry = None.
Proof.
  destruct (directive_property_binding_tags slider sliderMeta
              (property "value" [] 0) "value" eq_refl)
    as (entry & He & _ & Htags & Hin & Hout & Hia & Hreq & Hoa).
  exists entry. split; [exact He|]. split; [exact Htags|].
  split; [apply Hin; by eexists|].
  split; [intros Ho; apply Hout in Ho as [o Ho]; discriminate Ho|].
  split; [exact Hia|]. split; [exact Hreq | exact Hoa].
Defined.

(** C7, counterexample.  A repeated [readonly] modifier yields the tag
    [Readonly] twice; and the entry of a directive input carries [Input]
    after the tags of its modifiers. *)
Lemma member_tags_repeat_counterexample :
  getMemberTags (property "count" [ReadonlyKeyword; ReadonlyKeyword] 0)
  = [Readonly; Readonly]
  ∧ ¬ NoDup (getMemberTags (property "count" [ReadonlyKeyword; ReadonlyKeyword] 0))
  ∧ getMemberTags (property "value" [] 0) = []
  ∧ PropertyEntry.memberTags
      <$> extractClassProperty (DirectiveExtractor slider sliderMeta)
            (property "value" [] 0)
    = Ok [Input].
Proof.
  split; [reflexivity|]. split; [|split; reflexivity].
  intros Hnd. apply NoDup_cons in Hnd as [Hnotin _].
  apply Hnotin, list_elem_of_here.
Qed.

Lemma member_tags_follow_modifier_table_witness :
  getMemberTags
    (MemberElement.mk PropertyDeclaration (Some "limit")
       (Some [Decorator; Decorator; StaticKeyword; ReadonlyKeyword]) true 0)
  = [Static; Readonly; Optional]
  ∧ NoDup (getMemberTags
             (MemberElement.mk PropertyDeclaration (Some "limit")
                (Some [Decorator; Decorator; StaticKeyword; ReadonlyKeyword])
                true 0))
  ∧ ∃ e bindings,
      extractClassProperty (DirectiveExtractor slider sliderMeta)
        (property "value" [] 0) = Ok e
      ∧ PropertyEntry.memberTags e
        = getMemberTags (property "value" [] 0) ++ bindings
      ∧ bindings `sublist_of` [Input; Output].
Proof.
  destruct (member_tags_follow_modifier_table (ClassExtractor slider)
              (MemberElement.mk PropertyDeclaration (Some "limit")
                 (Some [Decorator; Decorator; StaticKeyword; ReadonlyKeyword])
                 true 0))
    as (Htable & _ & _ & _ & Hnodup).
  split; [exact Htable|]. split.
  - apply Hnodup. apply (bool_decide_unpack _). vm_compute. exact I.
  - destruct (member_tags_follow_modifier_table (ClassExtractor slider)
                (property "value" [] 0)) as (_ & _ & _ & Hdir & _).
    apply (Hdir slider sliderMeta "value"). reflexivity.
Defined.

Lemma accessor_pair_emits_getter_and_setter_witness :
  ∃ before between after e1 e2,
    extractAllClassMembers (ClassExtractor sized) sized
    = Ok (before ++ PropertyMember e1 :: between ++ PropertyMember e2 :: after)
    ∧ extractMembersLoop (ClassExtractor sized) [] [] = Ok before
    ∧ extractMembersLoop (ClassExtractor sized) [] [] = Ok between
    ∧ extractMembersLoop (ClassExtractor sized) [] [] = Ok after
    ∧ extractGetterSetter (ClassExtractor sized) (getter "size" 0) = Ok e1
    ∧ extractGetterSetter (ClassExtractor sized) (setter "size" 12) = Ok e2
    ∧ PropertyEntry.memberType e1 = Getter
    ∧ PropertyEntry.memberType e2 = Setter
    ∧ PropertyEntry.memberType e1 ≠ PropertyEntry.memberType e2.
Proof.
  apply (accessor_pair_emits_getter_and_setter (ClassExtractor sized)
           [] [] [] (getter "size" 0) (setter "size" 12) "size").
  - reflexivity.
  - reflexivity.
  - reflexivity.
  - left. split; reflexivity.
  - reflexivity.
  - reflexivity.
Defined.

Lemma isInSkipHydrationBlock_strict_ancestors_witness :
  isInSkipHydrationBlock asciiToLowerCase skippedHost = false
  ∧ isInSkipHydrationBlock asciiToLowerCase insideSkippedHost = true.
Proof.
  split.
  - apply (isInSkipHydrationBlock_strict_ancestors asciiToLowerCase skippedHost).
    + reflexivity.
    + intros a Ha. apply list_elem_of_singleton in Ha. rewrite Ha. reflexivity.
  - apply (isInSkipHydrationBlock_strict_ancestors asciiToLowerCase
             insideSkippedHost).
    exists skippedHost. split; [apply list_elem_of_here | reflexivity].
Defined.

Lemma hasSkipHydrationAttrOnTNode_static_section_witness :
  hasSkipHydrationAttrOnTNode asciiToLowerCase (mkTNode None None) = false
  ∧ hasSkipHydrationAttrOnTNode asciiToLowerCase
      (mkTNode (Some markerThenName) None) = false.
Proof.
  split.
  - apply (hasSkipHydrationAttrOnTNode_static_section asciiToLowerCase
             (mkTNode None None)).
    reflexivity.
  - apply (proj2 (hasSkipHydrationAttrOnTNode_static_section asciiToLowerCase
                    (mkTNode (Some markerThenName) None))
             markerThenName eq_refl) with (k := 1) (n := 1%Z).
    + reflexivity.
    + intros j s Hj. assert (j = 0) as -> by lia. simpl.
      intros [= <-]. discriminate.
Defined.

(** ** Further properties of the extractor *)

Section further_extraction_properties.
Context `{!Collaborators}.

(** X1.  The members list of [extract] holds exactly one entry for every
    member that is neither excluded nor the dropped implementation of an
    overload group, in source order, and no other entry. *)
Theorem extract_members_exactly_documented (self : Extractor) :
  ∃ entry,
    extract self = Ok entry
    ∧ Forall2 (λ m e, extractClassMember self m = Ok (Some e))
        (filter (λ m, isMemberExcluded m = false
                      ∧ ¬ isSkippedImplementation (declaration self) m)
           (ClassDeclarationLike.members (declaration self)))
        (ClassEntry.members entry).
Proof.
  destruct (extract_total self) as (entry & He & Hall).
  destruct (extractMembersLoop_exact self
              (ClassDeclarationLike.members (declaration self)))
    as (entries & Hl & Hf); [done|].
  exists entry. split; [done|].
  unfold extractAllClassMembers in Hall. rewrite Hl in Hall.
  by injection Hall as <-.
Qed.

(** X2.  [extractInterface] never throws.  When no member is a method
    declaration, as in an interface, nothing is dropped by the overload rule:
    every member that is not excluded has its entry, so the members list is as
    long as the list of non-excluded members; the entry is of type
    [Interface] for an interface declaration and has none of the directive or
    pipe fields. *)
Theorem extractInterface_documents_every_signature
    (d : ClassDeclarationLike.t) :
  Forall (λ m, MemberElement.kind m ≠ MethodDeclaration)
    (ClassDeclarationLike.members d) →
  ∃ entry,
    extractInterface d = Ok entry
    ∧ ClassEntry.entryType entry
      = (if isInterfaceDeclaration d then Interface else UndecoratedClass)
    ∧ ClassEntry.isStandalone entry = None
    ∧ ClassEntry.selector entry = None
    ∧ ClassEntry.pipeName entry = None
    ∧ Forall2 (λ m e, extractClassMember (ClassExtractor d) m = Ok (Some e))
        (filter (λ m, isMemberExcluded m = false)
           (ClassDeclarationLike.members d))
        (ClassEntry.members entry)
    ∧ length (ClassEntry.members entry)
      = length (filter (λ m, isMemberExcluded m = false)
                  (ClassDeclarationLike.members d)).
Proof.
  intros Hsig. unfold extractInterface.
  destruct (extract_base_total (ClassExtractor d))
    as (entry & Hb & Hall & Ht & Hs & Hsel & _ & Hpn).
  destruct (extractMembersLoop_exact (ClassExtractor d)
              (ClassDeclarationLike.members d))
    as (entries & Hl & Hf); [done|].
  unfold extractAllClassMembers in Hall. simpl in Hall, Hl, Hf.
  rewrite Hl in Hall. injection Hall as ->.
  assert (Hfilter : ∀ l, Forall (λ m, MemberElement.kind m ≠ MethodDeclaration) l →
    filter (λ m, isMemberExcluded m = false
                 ∧ ¬ isSkippedImplementation d m) l
    = filter (λ m, isMemberExcluded m = false) l).
  { induction 1 as [|x l Hx Hfa IH]; [done|].
    destruct (isMemberExcluded x) eqn:Hex.
    - rewrite !filter_cons_False; [done | congruence | intros [Hno _]; congruence].
    - rewrite !filter_cons_True; [by rewrite IH | done |].
      split; [done|]. intros [Hk _]. done. }
  rewrite Hfilter in Hf by done.
  exists entry. unfold extract. rewrite Hb. simpl.
  do 5 (split; [done|]). split; [done|].
  symmetry. by eapply Forall2_length.
Qed.

Lemma extractClassProperty_Ok_inv (self : Extractor) (m : MemberElement.t)
    (p : PropertyEntry.t) :
  extractClassProperty self m = Ok p →
  MemberElement.name m = Some (PropertyEntry.name p)
  ∧ PropertyEntry.memberType p = Property.
Proof.
  intros Hp. destruct (MemberElement.name m) as [n|] eqn:Hname.
  - destruct (extractClassProperty_named self m n Hname) as (e & He & Hn & Ht).
    rewrite He in Hp. injection Hp as <-. by rewrite Hn.
  - exfalso. destruct self; simpl in Hp;
      unfold extractClassProperty_base in Hp; rewrite Hname in Hp; done.
Qed.

(** The three ways a member comes to an entry. *)
Lemma extractClassMember_Some_inv (self : Extractor) (m : MemberElement.t)
    (e : MemberEntry) :
  extractClassMember self m = Ok (Some e) →
  (isMethod m = true ∧ e = MethodMember (extractMethod self m))
  ∨ (isMethod m = false ∧ isProperty m = true
     ∧ ∃ p, extractClassProperty self m = Ok p ∧ e = PropertyMember p)
  ∨ (isMethod m = false ∧ isProperty m = false ∧ isAccessor m = true
     ∧ ∃ p, extractClassProperty self m = Ok p
            ∧ e = PropertyMember
                    (withMemberType p (if isGetAccessor m then Getter else Setter))).
Proof.
  unfold extractClassMember. intros Hm.
  destruct (isMethod m) eqn:Hmeth.
  - destruct (kind_exclusive m Hmeth) as [Hp Ha]. rewrite Hp, Ha in Hm.
    destruct (isImplementationForOverload self m) as [[|]|]; simpl in Hm;
      try done.
    injection Hm as <-. by left.
  - right. destruct (isProperty m) eqn:Hprop.
    + left. destruct (extractClassProperty self m) as [p|]; simpl in Hm; [|done].
      injection Hm as <-. eauto.
    + right. destruct (isAccessor m); [|done].
      unfold extractGetterSetter in Hm.
      destruct (extractClassProperty self m) as [p|]; simpl in Hm; [|done].
      injection Hm as <-. eauto 6.
Qed.

(** X3.  The shape of an entry follows the kind of its member: a method gives
    the method entry of member type [Method]; a property, a getter and a
    setter give a property entry that carries the source text of the member's
    name and the member type [Property], [Getter] and [Setter]. *)
Theorem entry_shape_follows_member_kind (self : Extractor)
    (m : MemberElement.t) (e : MemberEntry) :
  extractClassMember self m = Ok (Some e) →
  match e with
  | MethodMember entry =>
      isMethod m = true
      ∧ entry = extractMethod self m
      ∧ MethodEntry.memberType entry = Method
  | PropertyMember entry =>
      isMethod m = false
      ∧ MemberElement.name m = Some (PropertyEntry.name entry)
      ∧ PropertyEntry.memberType entry
        = (if isProperty m then Property
           else if isGetAccessor m then Getter else Setter)
  end.
Proof.
  intros Hm.
  destruct (extractClassMember_Some_inv self m e Hm)
    as [[Hmeth ->] | [(Hmeth & Hprop & p & Hp & ->)
                     | (Hmeth & Hprop & Hacc & p & Hp & ->)]].
  - done.
  - apply extractClassProperty_Ok_inv in Hp as [Hn Ht]. by rewrite Hprop.
  - apply extractClassProperty_Ok_inv in Hp as [Hn Ht]. by rewrite Hprop.
Qed.

(** X4.  The binding tags come from the directive extractor alone: a method
    entry never carries [Input] or [Output], and with the generic, the pipe
    and the module extractor no property entry carries them or an alias or
    required field. *)
Theorem binding_tags_only_from_directive_extractor (self : Extractor) :
  ∃ entry,
    extract self = Ok entry
    ∧ Forall
        (λ e, match e with
              | MethodMember me =>
                  (Input ∉ MethodEntry.memberTags me)
                  ∧ (Output ∉ MethodEntry.memberTags me)
              | PropertyMember p =>
                  match self with
                  | DirectiveExtractor _ _ => True
                  | _ =>
                      (Input ∉ PropertyEntry.memberTags p)
                      ∧ (Output ∉ PropertyEntry.memberTags p)
                      ∧ PropertyEntry.inputAlias p = None
                      ∧ PropertyEntry.isRequiredInput p = None
                      ∧ PropertyEntry.outputAlias p = None
                  end
              end)
        (ClassEntry.members entry).
Proof.
  destruct (extract_total self) as (entry & He & Hall).
  destruct (extractMembersLoop_filter_map self
              (ClassDeclarationLike.members (declaration self)))
    as (kept & entries & Hl & _ & Hf); [done|].
  unfold extractAllClassMembers in Hall. rewrite Hl in Hall.
  injection Hall as Hentries.
  exists entry. split; [done|]. rewrite <- Hentries. clear Hentries Hl He.
  assert (Hno : ∀ m, (Input ∉ getMemberTags m) ∧ (Output ∉ getMemberTags m)).
  { intros m. split; intros Hin; apply getMemberTags_no_binding_tag in Hin; tauto. }
  assert (Hbase : ∀ m p,
    match self with DirectiveExtractor _ _ => False | _ => True end →
    extractClassProperty self m = Ok p →
    PropertyEntry.memberTags p = getMemberTags m
    ∧ PropertyEntry.inputAlias p = None
    ∧ PropertyEntry.isRequiredInput p = None
    ∧ PropertyEntry.outputAlias p = None).
  { intros m p Hself Hp.
    assert (Hb : extractClassProperty_base m = Ok p) by (by destruct self).
    unfold extractClassProperty_base in Hb.
    destruct (MemberElement.name m); [|done]. by injection Hb as <-. }
  induction Hf as [|m e kept' entries' Hm Hf IH]; constructor; [|done].
  destruct (extractClassMember_Some_inv self m e Hm)
    as [[_ ->] | [(_ & _ & p & Hp & ->) | (_ & _ & _ & p & Hp & ->)]].
  - simpl. apply Hno.
  - destruct self; try done;
      (destruct (Hbase m p I Hp) as (Ht & Hia & Hr & Hoa);
       rewrite Ht; destruct (Hno m); done).
  - destruct self; try done;
      (destruct (Hbase m p I Hp) as (Ht & Hia & Hr & Hoa); simpl;
       rewrite Ht; destruct (Hno m); done).
Qed.

Lemma extractMembersLoop_ext (self other : Extractor)
    (l : list MemberElement.t) (acc : list MemberEntry) :
  (∀ m, m ∈ l → extractClassMember self m = extractClassMember other m) →
  extractMembersLoop self l acc = extractMembersLoop other l acc.
Proof.
  revert acc. induction l as [|m l IH]; intros acc Hsame; [done|]. simpl.
  rewrite (Hsame m) by apply list_elem_of_here.
  assert (Hrest : ∀ m', m' ∈ l →
            extractClassMember self m' = extractClassMember other m').
  { intros m' Hm'. apply Hsame. by apply list_elem_of_further. }
  destruct (isMemberExcluded m); [by apply IH|].
  destruct (extractClassMember other m) as [[e|]|]; simpl;
    [by apply IH | by apply IH | done].
Qed.

(** X5.  The pipe and the module extractor add nothing to the members: their
    entry is the generic class entry of the same declaration with the entry
    type replaced, and for a pipe with the pipe name and the standalone flag
    added. *)
Theorem pipe_and_module_entries_overlay_generic_entry
    (d : ClassDeclarationLike.t) :
  ∃ generic,
    extract (ClassExtractor d) = Ok generic
    ∧ (∀ metadata,
         extract (PipeExtractor d metadata)
         = Ok (overlay generic Pipe (Some (PipeMeta.isStandalone metadata))
                 None None (Some (PipeMeta.name metadata))))
    ∧ (∀ metadata,
         extract (NgModuleExtractor d metadata)
         = Ok (overlay generic NgModule None None None None)).
Proof.
  destruct (extract_base_total (ClassExtractor d))
    as (base & Hb & _ & Ht & Hs & Hsel & Hexp & Hpn).
  assert (Hgen : extract (ClassExtractor d) = Ok base).
  { unfold extract. rewrite Hb. done. }
  exists base. split; [done|].
  assert (Hpipe : ∀ metadata, extract_base (PipeExtractor d metadata) = Ok base).
  { intros metadata. rewrite <- Hb. unfold extract_base, extractAllClassMembers.
    rewrite (extractMembersLoop_ext (PipeExtractor d metadata) (ClassExtractor d));
      done. }
  assert (Hmod : ∀ metadata, extract_base (NgModuleExtractor d metadata) = Ok base).
  { intros metadata. rewrite <- Hb. unfold extract_base, extractAllClassMembers.
    rewrite (extractMembersLoop_ext (NgModuleExtractor d metadata) (ClassExtractor d));
      done. }
  split; intros metadata; unfold extract.
  - rewrite Hpipe. simpl. by rewrite Hsel, Hexp.
  - rewrite Hmod. simpl. by rewrite Hs, Hsel, Hexp, Hpn.
Qed.

(** What the override of the directive extractor returns for a named member. *)
Lemma extractClassProperty_directive (d : ClassDeclarationLike.t)
    (metadata : DirectiveMeta.t) (m : MemberElement.t) (n : string) :
  MemberElement.name m = Some n →
  let input : option InputMapping :=
    DirectiveMeta.inputs metadata ≫= (λ inputs, inputs !! n) in
  let output : option InputOrOutput :=
    DirectiveMeta.outputs metadata ≫= (λ outputs, outputs !! n) in
  ∃ entry,
    extractClassProperty (DirectiveExtractor d metadata) m = Ok entry
    ∧ PropertyEntry.memberTags entry
      = getMemberTags m
        ++ match input with Some _ => [Input] | None => [] end
        ++ match output with Some _ => [Output] | None => [] end
    ∧ PropertyEntry.inputAlias entry = bindingPropertyName <$> input
    ∧ PropertyEntry.isRequiredInput entry = required <$> input
    ∧ PropertyEntry.outputAlias entry = outputBindingPropertyName <$> output
    ∧ (input = None → output = None → extractClassProperty_base m = Ok entry).
Proof.
  intros Hname input output.
  destruct (extractClassProperty_base_named m n Hname)
    as (base & Hbase & _ & _ & Htags & Hia & Hreq & Hoa).
  unfold extractClassProperty. rewrite Hbase. simpl.
  unfold getInputMetadata, getOutputMetadata. rewrite Hname. simpl.
  fold input. fold output.
  destruct input as [i|], output as [o|]; simpl;
    (eexists; split; [reflexivity|]); simpl;
    rewrite ?Htags, ?Hia, ?Hreq, ?Hoa, <- ?app_assoc, ?app_nil_r; done.
Qed.

(** X6.  A directive whose metadata binds none of the member names of its
    declaration, neither as input nor as output, has the members list the
    generic extractor gives for that declaration. *)
Theorem directive_without_bindings_has_generic_members
    (d : ClassDeclarationLike.t) (metadata : DirectiveMeta.t) :
  (∀ m n, m ∈ ClassDeclarationLike.members d →
          MemberElement.name m = Some n →
          (DirectiveMeta.inputs metadata ≫= (λ inputs, inputs !! n)) = None
          ∧ (DirectiveMeta.outputs metadata ≫= (λ outputs, outputs !! n)) = None) →
  extractAllClassMembers (DirectiveExtractor d metadata) d
  = extractAllClassMembers (ClassExtractor d) d.
Proof.
  intros Hunbound. unfold extractAllClassMembers.
  apply extractMembersLoop_ext. intros m Hin.
  assert (Hp : extractClassProperty (DirectiveExtractor d metadata) m
               = extractClassProperty (ClassExtractor d) m).
  { destruct (MemberElement.name m) as [n|] eqn:Hname.
    - destruct (Hunbound m n Hin Hname) as [Hi Ho].
      destruct (extractClassProperty_directive d metadata m n Hname)
        as (entry & He & _ & _ & _ & _ & Hb).
      rewrite He. simpl. symmetry. by apply Hb.
    - simpl. unfold extractClassProperty_base. by rewrite Hname. }
  unfold extractClassMember, extractGetterSetter. rewrite Hp. done.
Qed.

(** X7.  In a directive an accessor goes through the overridden property
    extraction: a getter or setter bound in the metadata under its source name
    carries [Input] or [Output] and the alias and required fields, and keeps
    the member type [Getter] or [Setter]. *)
Theorem directive_accessor_carries_bindings (d : ClassDeclarationLike.t)
    (metadata : DirectiveMeta.t) (accessor : MemberElement.t) (n : string) :
  isAccessor accessor = true →
  MemberElement.name accessor = Some n →
  let input : option InputMapping :=
    DirectiveMeta.inputs metadata ≫= (λ inputs, inputs !! n) in
  let output : option InputOrOutput :=
    DirectiveMeta.outputs metadata ≫= (λ outputs, outputs !! n) in
  ∃ entry,
    extractClassMember (DirectiveExtractor d metadata) accessor
    = Ok (Some (PropertyMember entry))
    ∧ PropertyEntry.memberType entry
      = (if isGetAccessor accessor then Getter else Setter)
    ∧ PropertyEntry.memberTags entry
      = getMemberTags accessor
        ++ match input with Some _ => [Input] | None => [] end
        ++ match output with Some _ => [Output] | None => [] end
    ∧ PropertyEntry.inputAlias entry = bindingPropertyName <$> input
    ∧ PropertyEntry.isRequiredInput entry = required <$> input
    ∧ PropertyEntry.outputAlias entry = outputBindingPropertyName <$> output.
Proof.
  intros Hacc Hname input output.
  destruct (extractClassProperty_directive d metadata accessor n Hname)
    as (base & He & Htags & Hia & Hreq & Hoa & _).
  exists (withMemberType base (if isGetAccessor accessor then Getter else Setter)).
  split; [|done].
  unfold extractClassMember, extractGetterSetter.
  assert (isMethod accessor = false ∧ isProperty accessor = false) as [-> ->].
  { unfold isAccessor, isGetAccessor, isSetAccessor, isMethod, isProperty,
      isMethodDeclaration, isMethodSignature, isPropertyDeclaration,
      isPropertySignature in *.
    destruct (MemberElement.kind accessor); simpl in *; done. }
  rewrite Hacc, He. done.
Qed.

Lemma elem_of_getMemberTags (m : MemberElement.t) (tag : MemberTags) :
  tag ∈ getMemberTags m ↔
  (∃ a, a ∈ default [] (MemberElement.modifiers m)
        ∧ getTagForMemberModifier a = Some tag)
  ∨ (tag = Optional ∧ MemberElement.questionToken m = true).
Proof.
  unfold getMemberTags. destruct (MemberElement.questionToken m).
  - rewrite elem_of_app, elem_of_getMemberTagsFromModifiers,
      list_elem_of_singleton. tauto.
  - rewrite elem_of_getMemberTagsFromModifiers. split; [tauto|].
    intros [Hm | [_ Hq]]; done.
Qed.

(** X8.  A member carries a modifier tag exactly when the modifier keyword of
    the table is among its modifiers, and [Optional] exactly when it has the
    optional marker; no other modifier leaves a trace, and a member without a
    modifiers array has at most [Optional]. *)
Theorem member_tag_present_iff_modifier (m : MemberElement.t) :
  (Static ∈ getMemberTags m
   ↔ StaticKeyword ∈ default [] (MemberElement.modifiers m))
  ∧ (Readonly ∈ getMemberTags m
     ↔ ReadonlyKeyword ∈ default [] (MemberElement.modifiers m))
  ∧ (Protected ∈ getMemberTags m
     ↔ ProtectedKeyword ∈ default [] (MemberElement.modifiers m))
  ∧ (Abstract ∈ getMemberTags m
     ↔ AbstractKeyword ∈ default [] (MemberElement.modifiers m))
  ∧ (Optional ∈ getMemberTags m ↔ MemberElement.questionToken m = true)
  ∧ (Input ∉ getMemberTags m)
  ∧ (Output ∉ getMemberTags m).
Proof.
  rewrite !elem_of_getMemberTags.
  repeat split.
  all: try (intros [(a & Ha & Ht) | [Ht _]]; [|done];
            destruct a; simpl in Ht; try done).
  all: try (intros Hin; left; eexists; split; [exact Hin | done]).
  all: try (intros [(a & Ha & Ht) | [Ht Hq]]; [|done];
            destruct a; simpl in Ht; done).
  all: try (intros Hq; right; done).
Qed.

(** X9.  The overload resolver throws exactly for a method that is not a
    signature and has no name, or whose name no member of the extractor's
    declaration carries; for every declaration member that is named it
    returns. *)
Theorem isImplementationForOverload_throws_iff (self : Extractor)
    (m : MemberElement.t) :
  isImplementationForOverload self m = Throw TypeError ↔
  MemberElement.kind m ≠ MethodSignature
  ∧ match MemberElement.name m with
    | None => True
    | Some n => sameNamed (declaration self) n = []
    end.
Proof.
  unfold isImplementationForOverload.
  destruct (decide (MemberElement.kind m = MethodSignature)) as [Hsig | Hsig].
  { rewrite bool_decide_eq_true_2 by done. split; [done | tauto]. }
  rewrite bool_decide_eq_false_2 by done.
  destruct (MemberElement.name m) as [n|]; [|tauto].
  fold (sameNamed (declaration self) n).
  set (group := sameNamed (declaration self) n).
  pose proof (length_merge_sort_pos group) as Hlen.
  rewrite Hlen.
  destruct (decide (length group = 1)) as [Hone | Hone].
  { rewrite bool_decide_eq_true_2 by done. split; [done|].
    intros [_ Hnil]. rewrite Hnil in Hone. done. }
  rewrite bool_decide_eq_false_2 by done.
  destruct (last (merge_sort pos_le group)) as [x|] eqn:Hlast.
  - split; [done|]. intros [_ Hnil].
    rewrite Hnil in Hlast. done.
  - split; [|done]. intros _. split; [done|].
    apply last_None in Hlast. rewrite Hlast in Hlen.
    by destruct group.
Qed.

(** X10.  When the members stand in source order, each starting before the
    next, the overload resolver answers [true] for a method declaration
    exactly when a member of the same name precedes it and none follows it:
    the implementation is the last declaration of the name. *)
Theorem implementation_is_last_declaration_of_name (self : Extractor)
    (pre post : list MemberElement.t) (m : MemberElement.t) (n : string) :
  ClassDeclarationLike.members (declaration self) = pre ++ m :: post →
  StronglySorted pos_lt (ClassDeclarationLike.members (declaration self)) →
  MemberElement.kind m = MethodDeclaration →
  MemberElement.name m = Some n →
  isImplementationForOverload self m
  = Ok (bool_decide
          (Exists (λ earlier, MemberElement.name earlier = Some n) pre
           ∧ Forall (λ later, MemberElement.name later ≠ Some n) post)).
Proof.
  intros Hmem Hsorted Hkind Hname.
  rewrite (isImplementationForOverload_spec self m n);
    [|by rewrite Hkind | done | rewrite Hmem, elem_of_app, elem_of_cons; tauto].
  f_equal. apply bool_decide_ext.
  rewrite Hmem in Hsorted.
  apply StronglySorted_app in Hsorted as (Hcross & _ & Hpost).
  apply StronglySorted_cons in Hpost as [Hafter _].
  rewrite Forall_forall in Hafter.
  unfold atLastPosition, sameNamed.
  rewrite Hmem, !filter_app, filter_cons_True by done.
  rewrite !length_app. simpl.
  rewrite !Forall_app, Forall_cons, !Forall_forall, Exists_exists.
  split.
  - intros (Hlen & _ & _ & Hlast).
    assert (Hnone : ∀ later, later ∈ post → MemberElement.name later ≠ Some n).
    { intros later Hin Hln.
      assert (Hf : later ∈ filter (λ o, MemberElement.name o = Some n) post)
        by (by apply list_elem_of_filter).
      specialize (Hlast later Hf). specialize (Hafter later Hin).
      unfold pos_le, pos_lt in *. lia. }
    split; [|done].
    rewrite (filter_none_named n post) in Hlen by (by apply Forall_forall).
    destruct (filter _ pre) as [|earlier pre'] eqn:Hpre; [simpl in Hlen; lia|].
    assert (Hin : earlier ∈ filter (λ o, MemberElement.name o = Some n) pre)
      by (rewrite Hpre; apply list_elem_of_here).
    apply list_elem_of_filter in Hin as [Hen Hin]. eauto.
  - intros [(earlier & Hin & Hen) Hnone].
    assert (Hf : earlier ∈ filter (λ o, MemberElement.name o = Some n) pre)
      by (by apply list_elem_of_filter).
    split; [|split; [|split]].
    + destruct (filter _ pre); [by apply elem_of_nil in Hf | simpl; lia].
    + intros y Hy. apply list_elem_of_filter in Hy as [_ Hy].
      assert (Hlt : pos_lt y m).
      { apply Hcross; [done | apply list_elem_of_here]. }
      unfold pos_le, pos_lt in *. lia.
    + unfold pos_le. lia.
    + intros y Hy. apply list_elem_of_filter in Hy as [Hyn Hy].
      by destruct (Hnone y Hy).
Qed.

(** X15.  The four extractors agree on the fields read off the declaration
    itself: the entry has the declaration's name, is abstract exactly when
    [abstract] is among the declaration's modifiers (never when it has no
    modifiers), and has the generics, description, documentation tags and
    raw comment the readers give for the declaration. *)
Theorem declaration_fields_same_for_every_extractor (self : Extractor) :
  ∃ entry,
    extract self = Ok entry
    ∧ ClassEntry.name entry = ClassDeclarationLike.name (declaration self)
    ∧ (ClassEntry.isAbstract entry = true
       ↔ ∃ mods, ClassDeclarationLike.modifiers (declaration self) = Some mods
                 ∧ AbstractKeyword ∈ mods)
    ∧ ClassEntry.generics entry = extractGenerics (declaration self)
    ∧ ClassEntry.description entry
      = extractJsDocDescription (DeclarationNode (declaration self))
    ∧ ClassEntry.jsdocTags entry
      = extractJsDocTags (DeclarationNode (declaration self))
    ∧ ClassEntry.rawComment entry
      = extractRawJsDoc (DeclarationNode (declaration self)).
Proof.
  destruct (extractMembersLoop_filter_map self
              (ClassDeclarationLike.members (declaration self)))
    as (kept & entries & Hl & _); [done|].
  assert (Habs : isAbstract self = true
                 ↔ ∃ mods, ClassDeclarationLike.modifiers (declaration self)
                           = Some mods ∧ AbstractKeyword ∈ mods).
  { unfold isAbstract.
    destruct (ClassDeclarationLike.modifiers (declaration self)) as [mods|];
      simpl.
    - rewrite some_kind_elem_of. split; [eauto|]. by intros (? & [= <-] & ?).
    - split; [done|]. by intros (? & ? & ?). }
  unfold extract, extract_base, extractAllClassMembers. rewrite Hl. simpl.
  destruct self; eexists; (split; [reflexivity|]); simpl; done.
Qed.

Lemma extractClassProperty_enriches (d : ClassDeclarationLike.t)
    (metadata : DirectiveMeta.t) (m : MemberElement.t) (g : PropertyEntry.t) :
  extractClassProperty (ClassExtractor d) m = Ok g →
  ∃ e, extractClassProperty (DirectiveExtractor d metadata) m = Ok e
       ∧ ∀ memberType,
           enriches (PropertyMember (withMemberType g memberType))
             (PropertyMember (withMemberType e memberType))
           ∧ enriches (PropertyMember g) (PropertyMember e).
Proof.
  simpl. intros Hg. unfold extractClassProperty_base in Hg.
  destruct (MemberElement.name m) as [n|] eqn:Hname; [|done].
  injection Hg as <-.
  unfold extractClassProperty_base, getInputMetadata, getOutputMetadata.
  rewrite Hname. simpl.
  destruct (DirectiveMeta.inputs metadata ≫= _) as [i|];
    destruct (DirectiveMeta.outputs metadata ≫= _) as [o|];
    (eexists; split; [reflexivity|]); intros memberType; simpl;
    repeat split; try done.
  all: try (by eexists; rewrite <- app_assoc).
  all: try (by eexists).
  all: by exists []; rewrite app_nil_r.
Qed.

Lemma extractClassMember_enriches (d : ClassDeclarationLike.t)
    (metadata : DirectiveMeta.t) (m : MemberElement.t) :
  match extractClassMember (ClassExtractor d) m,
        extractClassMember (DirectiveExtractor d metadata) m with
  | Ok (Some g), Ok (Some e) => enriches g e
  | Ok None, Ok None => True
  | Throw _, Throw _ => True
  | _, _ => False
  end.
Proof.
  unfold extractClassMember, extractGetterSetter.
  assert (Hp : ∀ memberType,
    match extractClassProperty (ClassExtractor d) m,
          extractClassProperty (DirectiveExtractor d metadata) m with
    | Ok g, Ok e =>
        enriches (PropertyMember (withMemberType g memberType))
          (PropertyMember (withMemberType e memberType))
        ∧ enriches (PropertyMember g) (PropertyMember e)
    | Throw _, Throw _ => True
    | _, _ => False
    end).
  { intros memberType.
    destruct (extractClassProperty (ClassExtractor d) m) as [g|] eqn:Hg.
    - destruct (extractClassProperty_enriches d metadata m g Hg)
        as (e & -> & He). apply He.
    - simpl in Hg. simpl. destruct (extractClassProperty_base m); done. }
  change (isImplementationForOverload (DirectiveExtractor d metadata) m)
    with (isImplementationForOverload (ClassExtractor d) m).
  specialize (Hp (if isGetAccessor m then Getter else Setter)).
  assert (Hrest :
    match (if isProperty m
           then entry ← extractClassProperty (ClassExtractor d) m;
                Ok (Some (PropertyMember entry))
           else if isAccessor m
           then entry ← (entry ← extractClassProperty (ClassExtractor d) m;
                         Ok (withMemberType entry
                               (if isGetAccessor m then Getter else Setter)));
                Ok (Some (PropertyMember entry))
           else Ok None),
          (if isProperty m
           then entry ← extractClassProperty (DirectiveExtractor d metadata) m;
                Ok (Some (PropertyMember entry))
           else if isAccessor m
           then entry ← (entry ← extractClassProperty
                                   (DirectiveExtractor d metadata) m;
                         Ok (withMemberType entry
                               (if isGetAccessor m then Getter else Setter)));
                Ok (Some (PropertyMember entry))
           else Ok None)
    with
    | Ok (Some g), Ok (Some e) => enriches g e
    | Ok None, Ok None => True
    | Throw _, Throw _ => True
    | _, _ => False
    end).
  { destruct (isProperty m), (isAccessor m);
      destruct (extractClassProperty (ClassExtractor d) m),
        (extractClassProperty (DirectiveExtractor d metadata) m);
      simpl in *; tauto. }
  destruct (isMethod m); [|exact Hrest].
  destruct (isImplementationForOverload (ClassExtractor d) m) as [[|]|];
    simpl; [exact Hrest | done | done].
Qed.

Lemma extractMembersLoop_enriches (d : ClassDeclarationLike.t)
    (metadata : DirectiveMeta.t) (l : list MemberElement.t) :
  match extractMembersLoop (ClassExtractor d) l [],
        extractMembersLoop (DirectiveExtractor d metadata) l [] with
  | Ok generic, Ok directive => Forall2 enriches generic directive
  | Throw _, Throw _ => True
  | _, _ => False
  end.
Proof.
  induction l as [|m l IH]; [constructor|].
  rewrite !extractMembersLoop_cons, !entriesOfMember_unfold.
  destruct (isMemberExcluded m).
  - simpl.
    destruct (extractMembersLoop (ClassExtractor d) l []),
      (extractMembersLoop (DirectiveExtractor d metadata) l []); done.
  - pose proof (extractClassMember_enriches d metadata m) as Hm.
    destruct (extractClassMember (ClassExtractor d) m) as [[g|]|errg],
      (extractClassMember (DirectiveExtractor d metadata) m) as [[e|]|erre];
      simpl; try done;
      destruct (extractMembersLoop (ClassExtractor d) l []),
        (extractMembersLoop (DirectiveExtractor d metadata) l []);
      simpl; try done.
    by constructor.
Qed.

(** X16.  The directive extractor neither adds, drops nor reorders members:
    its members list matches the generic extractor's entry by entry, with
    equal method entries and with property entries that differ only by tags
    appended after the generic ones and by the alias and required fields. *)
Theorem directive_members_enrich_generic_members (d : ClassDeclarationLike.t)
    (metadata : DirectiveMeta.t) :
  ∃ generic directive,
    extractAllClassMembers (ClassExtractor d) d = Ok generic
    ∧ extractAllClassMembers (DirectiveExtractor d metadata) d = Ok directive
    ∧ Forall2 enriches generic directive.
Proof.
  destruct (extractMembersLoop_filter_map (ClassExtractor d)
              (ClassDeclarationLike.members d))
    as (kept & generic & Hg & _); [done|].
  pose proof (extractMembersLoop_enriches d metadata
                (ClassDeclarationLike.members d)) as Hboth.
  simpl in Hg. rewrite Hg in Hboth.
  destruct (extractMembersLoop (DirectiveExtractor d metadata)
              (ClassDeclarationLike.members d) []) as [directive|] eqn:Hd;
    [|done].
  exists generic, directive. unfold extractAllClassMembers. done.
Qed.

(** X17.  A property or accessor of the declaration that has a name, no
    [private] modifier and a name the framework-private filter rejects is
    never hidden: it adds exactly one property entry, which carries its
    name. *)
Theorem public_property_is_always_documented (self : Extractor)
    (m : MemberElement.t) (n : string) :
  m ∈ ClassDeclarationLike.members (declaration self) →
  MemberElement.name m = Some n →
  isProperty m = true ∨ isAccessor m = true →
  PrivateKeyword ∉ default [] (MemberElement.modifiers m) →
  isAngularPrivateName n = false →
  isMemberExcluded m = false
  ∧ ∃ entry, entriesOfMember self m = Ok [PropertyMember entry]
             ∧ PropertyEntry.name entry = n.
Proof.
  intros Hin Hname Hkind Hpriv Hpub.
  assert (Hex : isMemberExcluded m = false).
  { unfold isMemberExcluded, isDocumentableMember. rewrite Hname, Hpub.
    assert (isMethod m || isProperty m || isAccessor m = true) as ->.
    { destruct Hkind as [-> | ->]; by rewrite ?orb_true_r. }
    simpl. rewrite orb_false_r.
    destruct (MemberElement.modifiers m) as [mods|]; [|done].
    apply not_true_is_false. by rewrite some_kind_elem_of. }
  split; [done|].
  rewrite entriesOfMember_unfold, Hex. unfold extractClassMember.
  assert (Hmeth : isMethod m = false).
  { unfold isProperty, isAccessor, isGetAccessor, isSetAccessor, isMethod,
      isMethodDeclaration, isMethodSignature, isPropertyDeclaration,
      isPropertySignature in *.
    destruct (MemberElement.kind m); simpl in *; destruct Hkind; done. }
  rewrite Hmeth. destruct (isProperty m) eqn:Hprop.
  - destruct (extractClassProperty_named self m n Hname) as (e & -> & Hn & _).
    simpl. eauto.
  - destruct Hkind as [Hk | Hacc]; [done|]. rewrite Hacc.
    destruct (extractGetterSetter_named self m n Hname) as (e & -> & Hn & _).
    simpl. eauto.
Qed.

End further_extraction_properties.

(** ** Further properties of the skip-hydration checks *)

Section further_hydration_properties.
Variable toLowerCase : string → string.

Lemma isInSkipHydrationBlock_iff (tNode : TNode) :
  isInSkipHydrationBlock toLowerCase tNode = true
  ↔ ∃ a, a ∈ ancestors tNode
         ∧ hasSkipHydrationAttrOnTNode toLowerCase a = true.
Proof.
  unfold isInSkipHydrationBlock. destruct tNode as [attrs [p|]]; simpl.
  - apply walkParents_spec.
  - split; [done|]. intros (a & Ha & _). by apply elem_of_nil in Ha.
Qed.

Lemma ancestors_trans (tNode a b : TNode) :
  a ∈ ancestors tNode → b ∈ ancestors a → b ∈ ancestors tNode.
Proof.
  induction tNode as [attrs | attrs p IH] using TNode_parent_ind; simpl.
  - intros Ha. by apply elem_of_nil in Ha.
  - intros [-> | Ha]%elem_of_cons Hb.
    + by apply list_elem_of_further.
    + apply list_elem_of_further. by apply IH.
Qed.

(** X11.  A skip-hydration block is inherited: a root is in no block, a child
    is in a block exactly when its parent carries the attribute or is itself
    in a block, and so every descendant of a node that carries the attribute
    or lies in a block lies in a block. *)
Theorem isInSkipHydrationBlock_is_inherited (tNode : TNode) :
  (parent tNode = None → isInSkipHydrationBlock toLowerCase tNode = false)
  ∧ (∀ p, parent tNode = Some p →
       isInSkipHydrationBlock toLowerCase tNode
       = hasSkipHydrationAttrOnTNode toLowerCase p
         || isInSkipHydrationBlock toLowerCase p)
  ∧ (∀ a, a ∈ ancestors tNode →
       hasSkipHydrationAttrOnTNode toLowerCase a = true
       ∨ isInSkipHydrationBlock toLowerCase a = true →
       isInSkipHydrationBlock toLowerCase tNode = true).
Proof.
  split; [|split].
  - unfold isInSkipHydrationBlock. by intros ->.
  - intros p Hp. unfold isInSkipHydrationBlock. rewrite Hp.
    destruct p as [attrs [pp|]]; simpl;
      by destruct (hasSkipHydrationAttrOnTNode _ _).
  - intros a Ha [Hhas | Hin]; apply isInSkipHydrationBlock_iff.
    + eauto.
    + apply isInSkipHydrationBlock_iff in Hin as (b & Hb & Hhas).
      exists b. split; [by eapply ancestors_trans | done].
Qed.

(** X12.  Only the entries at even indices, the attribute names, are read:
    two attribute arrays that agree at every even index give the same
    answer, whatever their values at the odd indices. *)
Theorem hasSkipHydrationAttrOnTNode_reads_names_only
    (attrs attrs' : list TAttribute) (p p' : option TNode) :
  (∀ k, attrs !! (2 * k) = attrs' !! (2 * k)) →
  hasSkipHydrationAttrOnTNode toLowerCase (mkTNode (Some attrs) p)
  = hasSkipHydrationAttrOnTNode toLowerCase (mkTNode (Some attrs') p').
Proof.
  intros Heven. unfold hasSkipHydrationAttrOnTNode. simpl.
  assert (Hiff : staticNameMatches toLowerCase attrs
                 ↔ staticNameMatches toLowerCase attrs').
  { unfold staticNameMatches. split.
    - intros (k & s & Hk & Hs & Hbefore). exists k, s.
      rewrite <- Heven. split; [done|]. split; [done|].
      intros j n Hj. rewrite <- Heven. by apply Hbefore.
    - intros (k & s & Hk & Hs & Hbefore). exists k, s.
      rewrite Heven. split; [done|]. split; [done|].
      intros j n Hj. rewrite Heven. by apply Hbefore. }
  rewrite <- !scanAttrNames_spec in Hiff.
  destruct (scanAttrNames toLowerCase attrs),
    (scanAttrNames toLowerCase attrs'); try done.
  - symmetry. by apply Hiff.
  - by apply Hiff.
Qed.

Lemma scanAttrNames_cut (k : nat) (names rest : list TAttribute) (n : Z) :
  length names = 2 * k →
  scanAttrNames toLowerCase (names ++ AttrMarker n :: rest)
  = scanAttrNames toLowerCase names.
Proof.
  revert names. induction k as [|k IH]; intros names Hlen.
  - destruct names; [done | simpl in Hlen; lia].
  - destruct names as [|name [|value names]]; simpl in Hlen; try lia.
    rewrite <- !app_comm_cons, !scanAttrNames_cons. simpl.
    rewrite !drop_0, IH by lia. done.
Qed.

(** X13.  After an even number of entries, a numeric marker and everything
    that follows it is without effect: the answer is the one for the entries
    before the marker. *)
Theorem marker_and_rest_are_ignored (k : nat) (names rest : list TAttribute)
    (n : Z) (p : option TNode) :
  length names = 2 * k →
  hasSkipHydrationAttrOnTNode toLowerCase
    (mkTNode (Some (names ++ AttrMarker n :: rest)) p)
  = hasSkipHydrationAttrOnTNode toLowerCase (mkTNode (Some names) p).
Proof.
  intros Hlen. unfold hasSkipHydrationAttrOnTNode. simpl.
  by apply (scanAttrNames_cut k).
Qed.

End further_hydration_properties.

Lemma toInt32_testbit (x : Z) (k : Z) :
  (0 ≤ k < 32)%Z → Z.testbit (toInt32 x) k = Z.testbit x k.
Proof.
  intros Hk.
  rewrite <- (Z.mod_pow2_bits_low (toInt32 x) 32 k) by lia.
  rewrite <- (Z.mod_pow2_bits_low x 32 k) by lia.
  f_equal. unfold toInt32.
  rewrite Zminus_mod_idemp_l. f_equal. lia.
Qed.

Lemma toInt32_pow2 (k : Z) : (0 ≤ k < 31)%Z → toInt32 (2 ^ k) = (2 ^ k)%Z.
Proof.
  intros Hk. unfold toInt32.
  assert (0 < 2 ^ k < 2 ^ 31)%Z.
  { split; [apply Z.pow_pos_nonneg; lia | apply Z.pow_lt_mono_r; lia]. }
  rewrite Z.mod_small; lia.
Qed.

(** X14.  For a flag constant that is a single bit below the sign bit, the
    flag check answers whether that bit of the flags is set; the other bits
    of the flags do not matter. *)
Theorem hasInSkipHydrationBlockFlag_tests_bit (k flags : Z) :
  (0 ≤ k < 31)%Z →
  hasInSkipHydrationBlockFlag (2 ^ k) flags = Z.testbit flags k.
Proof.
  intros Hk. unfold hasInSkipHydrationBlockFlag.
  rewrite toInt32_pow2 by done.
  rewrite <- (toInt32_testbit flags k) by lia.
  set (y := toInt32 flags).
  destruct (Z.testbit y k) eqn:Hbit.
  - apply bool_decide_eq_true_2. apply Z.bits_inj'. intros i Hi.
    rewrite Z.land_spec, Z.pow2_bits_eqb by lia.
    destruct (Z.eqb_spec k i) as [<- | Hne]; [by rewrite Hbit|].
    by rewrite andb_false_r.
  - apply bool_decide_eq_false_2. intros Hland.
    assert (Hk' : Z.testbit (Z.land y (2 ^ k)) k = true).
    { rewrite Hland, Z.pow2_bits_eqb, Z.eqb_refl by lia. done. }
    rewrite Z.land_spec, Hbit in Hk'. done.
Qed.

(** ** Instances of the further properties *)

Lemma extractInterface_documents_every_signature_witness :
  ∃ entry,
    extractInterface shape = Ok entry
    ∧ ClassEntry.entryType entry = Interface
    ∧ length (ClassEntry.members entry) = 2.
Proof.
  destruct (extractInterface_documents_every_signature shape)
    as (entry & He & Ht & _ & _ & _ & _ & Hlen).
  - repeat constructor; discriminate.
  - exists entry. split; [exact He|]. split; [exact Ht | exact Hlen].
Defined.

Lemma entry_shape_follows_member_kind_witness :
  ∃ entry,
    extractClassMember (ClassExtractor sized) (setter "size" 12)
    = Ok (Some (PropertyMember entry))
    ∧ MemberElement.name (setter "size" 12) = Some (PropertyEntry.name entry)
    ∧ PropertyEntry.memberType entry = Setter.
Proof.
  eexists. split; [reflexivity|].
  destruct (entry_shape_follows_member_kind (ClassExtractor sized)
              (setter "size" 12) _ eq_refl) as (_ & Hname & Htype).
  split; [exact Hname | exact Htype].
Defined.

Lemma directive_without_bindings_has_generic_members_witness :
  extractAllClassMembers (DirectiveExtractor sized unboundMeta) sized
  = extractAllClassMembers (ClassExtractor sized) sized.
Proof.
  apply (directive_without_bindings_has_generic_members sized unboundMeta).
  intros m n _ _. split; [apply lookup_empty | reflexivity].
Defined.

Lemma directive_accessor_carries_bindings_witness :
  ∃ entry,
    extractClassMember (DirectiveExtractor toggle toggleMeta) (setter "checked" 0)
    = Ok (Some (PropertyMember entry))
    ∧ PropertyEntry.memberType entry = Setter
    ∧ PropertyEntry.memberTags entry = [Input]
    ∧ PropertyEntry.inputAlias entry = Some "isChecked"
    ∧ PropertyEntry.isRequiredInput entry = Some false
    ∧ PropertyEntry.outputAlias entry = None.
Proof.
  apply (directive_accessor_carries_bindings toggle toggleMeta
           (setter "checked" 0) "checked"); reflexivity.
Defined.

Lemma isImplementationForOverload_throws_iff_witness :
  isImplementationForOverload (ClassExtractor sized) (method "run" 10)
  = Throw TypeError.
Proof.
  apply (isImplementationForOverload_throws_iff (ClassExtractor sized)
           (method "run" 10)).
  split; [discriminate | reflexivity].
Defined.

Lemma implementation_is_last_declaration_of_name_witness :
  isImplementationForOverload (ClassExtractor overloaded) (method "run" 30)
  = Ok true
  ∧ isImplementationForOverload (ClassExtractor overloaded) (method "run" 20)
    = Ok false.
Proof.
  assert (Hsorted : StronglySorted pos_lt
                      (ClassDeclarationLike.members
                         (declaration (ClassExtractor overloaded)))).
  { simpl. repeat constructor; unfold pos_lt; simpl; lia. }
  split.
  - apply (implementation_is_last_declaration_of_name
             (ClassExtractor overloaded) [method "run" 10; method "run" 20]
             [method "stop" 40] (method "run" 30) "run");
      [reflexivity | exact Hsorted | reflexivity | reflexivity].
  - apply (implementation_is_last_declaration_of_name
             (ClassExtractor overloaded) [method "run" 10]
             [method "run" 30; method "stop" 40] (method "run" 20) "run");
      [reflexivity | exact Hsorted | reflexivity | reflexivity].
Defined.

Lemma public_property_is_always_documented_witness :
  isMemberExcluded (property "step" [] 20) = false
  ∧ ∃ entry,
      entriesOfMember (DirectiveExtractor slider sliderMeta)
        (property "step" [] 20) = Ok [PropertyMember entry]
      ∧ PropertyEntry.name entry = "step".
Proof.
  apply (public_property_is_always_documented
           (DirectiveExtractor slider sliderMeta) (property "step" [] 20) "step").
  - simpl. do 2 apply list_elem_of_further. apply list_elem_of_here.
  - reflexivity.
  - left. reflexivity.
  - simpl. apply not_elem_of_nil.
  - reflexivity.
Defined.

Lemma isInSkipHydrationBlock_is_inherited_witness :
  isInSkipHydrationBlock asciiToLowerCase plainRoot = false
  ∧ isInSkipHydrationBlock asciiToLowerCase
      (mkTNode None (Some insideSkippedHost)) = true.
Proof.
  split.
  - apply (isInSkipHydrationBlock_is_inherited asciiToLowerCase plainRoot).
    reflexivity.
  - apply (proj2 (proj2 (isInSkipHydrationBlock_is_inherited asciiToLowerCase
                           (mkTNode None (Some insideSkippedHost))))
             insideSkippedHost).
    + apply list_elem_of_here.
    + right. reflexivity.
Defined.

Lemma hasSkipHydrationAttrOnTNode_reads_names_only_witness :
  hasSkipHydrationAttrOnTNode asciiToLowerCase
    (mkTNode (Some [AttrString "ngSkipHydration"; AttrString ""]) None)
  = hasSkipHydrationAttrOnTNode asciiToLowerCase
      (mkTNode (Some [AttrString "ngSkipHydration"; AttrMarker 3]) None).
Proof.
  apply (hasSkipHydrationAttrOnTNode_reads_names_only asciiToLowerCase).
  intros [|k]; [reflexivity|].
  replace (2 * S k) with (S (S (2 * k))) by lia. reflexivity.
Defined.

Lemma marker_and_rest_are_ignored_witness :
  hasSkipHydrationAttrOnTNode asciiToLowerCase
    (mkTNode (Some markerThenName) None)
  = hasSkipHydrationAttrOnTNode asciiToLowerCase
      (mkTNode (Some [AttrString "class"; AttrString "a"]) None).
Proof.
  apply (marker_and_rest_are_ignored asciiToLowerCase 1
           [AttrString "class"; AttrString "a"]
           [AttrString "x"; AttrString "ngSkipHydration"; AttrString ""] 1 None).
  reflexivity.
Defined.

Lemma hasInSkipHydrationBlockFlag_tests_bit_witness :
  hasInSkipHydrationBlockFlag (2 ^ 7) 130 = Z.testbit 130 7.
Proof.
  apply (hasInSkipHydrationBlockFlag_tests_bit 7 130). lia.
Defined.
